(** * Meeting recorder: the controller of [src/App.jsx]

    A shallow embedding of the React component [App]: its five state
    cells, its two refs, the four button handlers with the [disabled]
    attribute that gates each button, and the continuations that run when
    the browser settles a promise or a [MediaRecorder] fires an event.

    The browser is the environment.  Every continuation of the component
    is one atomic transition (JavaScript runs a task to completion, and
    React has rendered the state it left before the next one starts), and
    the environment chooses which pending promise settles next and how.
    Of the JSX only the [disabled] attributes are embedded.

    Three things the browser does are not in the model, and no statement
    below rests on them.  React throws on a child it cannot render (lines
    81, 145, 151) and unmounts the component: statements about the state
    after a write are about values React renders.  A recorder whose tracks
    end stops by itself.  The last [dataavailable] of a recorder and its
    [stop] event are fired in one task: the model delivers them as two
    events, which adds runs and removes none. *)

From Stdlib Require Import ZArith Strings.Byte Ascii String DecimalString.
From Stdlib Require Import DecimalPos.
From stdpp Require Import base list strings.

Local Open Scope string_scope.
Local Set Warnings "-register-all".

(** ** JavaScript values *)

(** What [res.json()] can return, and so what the state cells can come to
    hold.  [JNum] stands for an integer-valued number in the safe range,
    where the decimal rendering is exact; other numbers are outside the
    model.  [JObj] lists the own properties in enumeration order, each
    name once. *)
Inductive json : Type :=
  | JNull
  | JBool (b : bool)
  | JNum (z : Z)
  | JStr (s : string)
  | JArr (items : list json)
  | JObj (props : list (string * json)).

(** [undefined] is not a JSON value: a read that can yield it returns
    [option json], [None] standing for [undefined]. *)
Definition jsval := option json.

(** ToBoolean, as used by [!x] and [x || y]. *)
Definition truthy (j : json) : bool :=
  match j with
  | JNull => false
  | JBool b => b
  | JNum z => negb (Z.eqb z 0)
  | JStr s => negb (String.eqb s "")
  | JArr _ | JObj _ => true
  end.

Definition truthy_val (v : jsval) : bool :=
  match v with
  | None => false
  | Some j => truthy j
  end.

Fixpoint lookup_prop (p : string) (props : list (string * json)) : jsval :=
  match props with
  | [] => None
  | (k, v) :: rest => if String.eqb k p then Some v else lookup_prop p rest
  end.

(** The outcome of evaluating an expression that may throw. *)
Inductive completion (A : Type) : Type :=
  | Normal (a : A)
  | Throw (message : string).
Arguments Normal {A} a.
Arguments Throw {A} message.

(** The message of the TypeError raised by reading property [p] of
    [null] or [undefined].  The text is the engine's; this is V8's. *)
Definition TypeError_message (base : string) (p : string) : string :=
  "Cannot read properties of " +:+ base +:+ " (reading '" +:+ p +:+ "')".

(** [v.p] for the property names the component reads: [transcription],
    [file], [webViewLink], [id], [summary], [action_items].  None of them
    is a built-in property of a string, number, boolean or array, so on
    those the read yields [undefined]; on [null] and [undefined] it
    throws. *)
Definition get (v : jsval) (p : string) : completion jsval :=
  match v with
  | None => Throw (TypeError_message "undefined" p)
  | Some JNull => Throw (TypeError_message "null" p)
  | Some (JObj props) => Normal (lookup_prop p props)
  | Some _ => Normal None
  end.

Definition nl : string := String "010"%char "".

(** Decimal rendering of an integer, as Number::toString does for safe
    integers. *)
Definition Z_to_string (z : Z) : string :=
  match z with
  | Z0 => "0"
  | Zpos p => NilEmpty.string_of_uint (Pos.to_uint p)
  | Zneg p => "-" +:+ NilEmpty.string_of_uint (Pos.to_uint p)
  end.

Fixpoint join (sep : string) (parts : list string) : string :=
  match parts with
  | [] => ""
  | [s] => s
  | s :: rest => s +:+ sep +:+ join sep rest
  end.

(** ToString, as applied by [+] to a non-string operand.  An array goes
    through [Array.prototype.join], which renders [null] as the empty
    string; an object renders as [[object Object]]. *)
Fixpoint js_to_string (j : json) : string :=
  match j with
  | JNull => "null"
  | JBool true => "true"
  | JBool false => "false"
  | JNum z => Z_to_string z
  | JStr s => s
  | JArr items =>
      join "," (map (fun x => match x with
                              | JNull => ""
                              | _ => js_to_string x
                              end) items)
  | JObj _ => "[object Object]"
  end.

Definition val_to_string (v : jsval) : string :=
  match v with
  | None => "undefined"
  | Some j => js_to_string j
  end.

(** *** JSON.stringify *)

Definition dquote : string := String "034"%char "".

Definition hex_digit (n : N) : ascii :=
  match n with
  | 0%N => "0" | 1%N => "1" | 2%N => "2" | 3%N => "3" | 4%N => "4"
  | 5%N => "5" | 6%N => "6" | 7%N => "7" | 8%N => "8" | 9%N => "9"
  | 10%N => "a" | 11%N => "b" | 12%N => "c" | 13%N => "d" | 14%N => "e"
  | _ => "f"
  end%char.

(** QuoteJSONString on one code unit below 0x80; bytes of a multi-byte
    UTF-8 sequence pass through. *)
Definition escape_char (c : ascii) : string :=
  let n := N_of_ascii c in
  if (n =? 34)%N then String "\" dquote
  else if (n =? 92)%N then "\\"
  else if (n =? 8)%N then "\b"
  else if (n =? 9)%N then "\t"
  else if (n =? 10)%N then "\n"
  else if (n =? 12)%N then "\f"
  else if (n =? 13)%N then "\r"
  else if (n <? 32)%N then
    "\u00" +:+ String (hex_digit (n / 16)) (String (hex_digit (n mod 16)) "")
  else String c "".

Fixpoint escape (s : string) : string :=
  match s with
  | EmptyString => ""
  | String c rest => escape_char c +:+ escape rest
  end.

Definition quote (s : string) : string := dquote +:+ escape s +:+ dquote.

Fixpoint JSON_stringify (j : json) : string :=
  match j with
  | JNull => "null"
  | JBool true => "true"
  | JBool false => "false"
  | JNum z => Z_to_string z
  | JStr s => quote s
  | JArr items => "[" +:+ join "," (map JSON_stringify items) +:+ "]"
  | JObj props =>
      "{" +:+ join "," (map (fun kv => quote (fst kv) +:+ ":" +:+ JSON_stringify (snd kv)) props) +:+ "}"
  end.

(** [a || d] where [d] is a defined value. *)
Definition or_else (a : jsval) (d : json) : json :=
  match a with
  | Some j => if truthy j then j else d
  | None => d
  end.

(** [prev + text], [text] a string. *)
Definition js_append (prev : json) (text : string) : json :=
  JStr (js_to_string prev +:+ text).

(** ** Browser objects *)

Record Blob := { blob_type : string; blob_bytes : list byte }.

Definition size (b : Blob) : nat := length (blob_bytes b).

(** [new Blob(parts, { type })] *)
Definition new_Blob (parts : list Blob) (type : string) : Blob :=
  {| blob_type := type; blob_bytes := concat (map blob_bytes parts) |}.

Inductive Body :=
  | FormData (field : string) (file : Blob) (filename : string)
  | Text (text : string).

Record Request := {
  url : string;
  method : string;
  headers : list (string * string);
  body : Body
}.

(** A [MediaRecorder] is [Recording] from [start()] to [stop()], then
    [Stopping] while its [stop] event is queued, then [Inactive]; one
    whose [start()] threw is [Inactive] from the beginning.  Its [state]
    attribute reads ['inactive'] unless it is [Recording]. *)
Inductive Phase := Inactive | Recording | Stopping.

Record MediaRecorder := { stream : nat; phase : Phase }.

Definition is_recording (p : Phase) : bool :=
  match p with Recording => true | _ => false end.

Definition is_stopping (p : Phase) : bool :=
  match p with Stopping => true | _ => false end.

(** ** The component and its environment *)

Record World := {
  (* useState *)
  recording : bool;
  transcript : json;
  summary : json;
  actionItems : json;
  status : string;
  (* useRef *)
  mediaRecorderRef : option nat;   (* index into [recorders]; [None] is null *)
  chunksRef : list Blob;
  (* the browser *)
  recorders : list MediaRecorder;  (* every MediaRecorder constructed so far *)
  streams : list nat;              (* per acquired stream, how often its tracks were stopped *)
  micRequests : nat;               (* getUserMedia promises not yet settled *)
  uploads : nat;                   (* fetches in flight, per endpoint *)
  saves : nat;
  summaries : nat;
  network : list Request           (* every request sent, oldest first *)
}.

Definition init : World :=
  {| recording := false; transcript := JStr ""; summary := JStr "";
     actionItems := JArr []; status := "idle";
     mediaRecorderRef := None; chunksRef := [];
     recorders := []; streams := []; micRequests := 0;
     uploads := 0; saves := 0; summaries := 0; network := [] |}.

Definition setRecording (v : bool) (w : World) : World :=
  {| recording := v; transcript := transcript w; summary := summary w;
     actionItems := actionItems w; status := status w;
     mediaRecorderRef := mediaRecorderRef w; chunksRef := chunksRef w;
     recorders := recorders w; streams := streams w;
     micRequests := micRequests w; uploads := uploads w; saves := saves w;
     summaries := summaries w; network := network w |}.

Definition setTranscript (v : json) (w : World) : World :=
  {| recording := recording w; transcript := v; summary := summary w;
     actionItems := actionItems w; status := status w;
     mediaRecorderRef := mediaRecorderRef w; chunksRef := chunksRef w;
     recorders := recorders w; streams := streams w;
     micRequests := micRequests w; uploads := uploads w; saves := saves w;
     summaries := summaries w; network := network w |}.

Definition setSummary (v : json) (w : World) : World :=
  {| recording := recording w; transcript := transcript w; summary := v;
     actionItems := actionItems w; status := status w;
     mediaRecorderRef := mediaRecorderRef w; chunksRef := chunksRef w;
     recorders := recorders w; streams := streams w;
     micRequests := micRequests w; uploads := uploads w; saves := saves w;
     summaries := summaries w; network := network w |}.

Definition setActionItems (v : json) (w : World) : World :=
  {| recording := recording w; transcript := transcript w; summary := summary w;
     actionItems := v; status := status w;
     mediaRecorderRef := mediaRecorderRef w; chunksRef := chunksRef w;
     recorders := recorders w; streams := streams w;
     micRequests := micRequests w; uploads := uploads w; saves := saves w;
     summaries := summaries w; network := network w |}.

Definition setStatus (v : string) (w : World) : World :=
  {| recording := recording w; transcript := transcript w; summary := summary w;
     actionItems := actionItems w; status := v;
     mediaRecorderRef := mediaRecorderRef w; chunksRef := chunksRef w;
     recorders := recorders w; streams := streams w;
     micRequests := micRequests w; uploads := uploads w; saves := saves w;
     summaries := summaries w; network := network w |}.

(** [mediaRecorderRef.current = r; chunksRef.current = cs] *)
Definition set_refs (r : option nat) (cs : list Blob) (w : World) : World :=
  {| recording := recording w; transcript := transcript w; summary := summary w;
     actionItems := actionItems w; status := status w;
     mediaRecorderRef := r; chunksRef := cs;
     recorders := recorders w; streams := streams w;
     micRequests := micRequests w; uploads := uploads w; saves := saves w;
     summaries := summaries w; network := network w |}.

Definition set_devices (rs : list MediaRecorder) (ss : list nat) (w : World) : World :=
  {| recording := recording w; transcript := transcript w; summary := summary w;
     actionItems := actionItems w; status := status w;
     mediaRecorderRef := mediaRecorderRef w; chunksRef := chunksRef w;
     recorders := rs; streams := ss;
     micRequests := micRequests w; uploads := uploads w; saves := saves w;
     summaries := summaries w; network := network w |}.

(** The promises not yet settled: getUserMedia, then the three fetches. *)
Definition set_pending (m u s z : nat) (w : World) : World :=
  {| recording := recording w; transcript := transcript w; summary := summary w;
     actionItems := actionItems w; status := status w;
     mediaRecorderRef := mediaRecorderRef w; chunksRef := chunksRef w;
     recorders := recorders w; streams := streams w;
     micRequests := m; uploads := u; saves := s; summaries := z;
     network := network w |}.

Definition send (r : Request) (w : World) : World :=
  {| recording := recording w; transcript := transcript w; summary := summary w;
     actionItems := actionItems w; status := status w;
     mediaRecorderRef := mediaRecorderRef w; chunksRef := chunksRef w;
     recorders := recorders w; streams := streams w;
     micRequests := micRequests w; uploads := uploads w; saves := saves w;
     summaries := summaries w; network := network w ++ [r] |}.

Inductive Endpoint := Upload | Save | Summarize.

(** [navigator.mediaDevices.getUserMedia({ audio: true })]: one more
    promise to settle. *)
Definition getUserMedia (w : World) : World :=
  set_pending (S (micRequests w)) (uploads w) (saves w) (summaries w) w.

(** [fetch(url, init)]: the request leaves, its promise is pending. *)
Definition fetch (e : Endpoint) (r : Request) (w : World) : World :=
  let w := send r w in
  match e with
  | Upload => set_pending (micRequests w) (S (uploads w)) (saves w) (summaries w) w
  | Save => set_pending (micRequests w) (uploads w) (S (saves w)) (summaries w) w
  | Summarize => set_pending (micRequests w) (uploads w) (saves w) (S (summaries w)) w
  end.

(** *** startRecording (lines 12-53) *)

(** Lines 13-16, up to the [await]. *)
Definition startRecording (w : World) : World :=
  let w := setTranscript (JStr "") w in
  let w := setStatus "requesting_mic" w in
  getUserMedia w.

(** Lines 49-52. *)
Definition startRecording_catch (message : string) (w : World) : World :=
  let w := setStatus "mic_error" w in
  setTranscript (JStr ("Microphone access denied or not available: " +:+ message)) w.

(** How the recorder set-up of lines 17-46 goes once a stream is there:
    both [new MediaRecorder(stream)] and [mr.start()] can throw. *)
Inductive Setup :=
  | SetupOk
  | ConstructorThrows (message : string)
  | StartThrows (message : string).

(** Lines 16-48, from the [await] on, with the stream granted.  The new
    stream is the next entry of [streams], live (stopped 0 times). *)
Definition startRecording_resume (setup : Setup) (w : World) : World :=
  let s := length (streams w) in
  let w := set_devices (recorders w) (streams w ++ [0]) w in
  match setup with
  | ConstructorThrows message => startRecording_catch message w
  | StartThrows message =>
      let mr := length (recorders w) in
      let w := set_devices (recorders w ++ [{| stream := s; phase := Inactive |}]) (streams w) w in
      let w := set_refs (Some mr) [] w in
      startRecording_catch message w
  | SetupOk =>
      let mr := length (recorders w) in
      let w := set_devices (recorders w ++ [{| stream := s; phase := Inactive |}]) (streams w) w in
      let w := set_refs (Some mr) [] w in
      let w := set_devices (<[mr := {| stream := s; phase := Recording |}]> (recorders w)) (streams w) w in
      let w := setRecording true w in
      setStatus "recording" w
  end.

(** Lines 21-23; [None] is a missing [e.data]. *)
Definition ondataavailable (data : option Blob) (w : World) : World :=
  match data with
  | Some b =>
      if (0 <? size b)%nat then set_refs (mediaRecorderRef w) (chunksRef w ++ [b]) w else w
  | None => w
  end.

(** The request of lines 28-36. *)
Definition upload_request (blob : Blob) : Request :=
  {| url := "http://127.0.0.1:8000/upload-audio"; method := "POST";
     headers := []; body := FormData "file" blob "meeting.webm" |}.

(** Lines 25-36, up to the [await]. *)
Definition onstop (w : World) : World :=
  let w := setStatus "uploading" w in
  let blob := new_Blob (chunksRef w) "audio/webm" in
  fetch Upload (upload_request blob) w.

(** How a [fetch] followed by [res.json()] settles: either of the two
    promises rejects, or there is a response with its [ok] flag and its
    parsed body.  No state changes between the two awaits, so they are one
    step. *)
Inductive Settled :=
  | Rejected (message : string)
  | Responded (ok : bool) (parsed : json).

(** Lines 40-43. *)
Definition upload_catch (message : string) (w : World) : World :=
  let w := setTranscript (JStr ("Error uploading/transcribing: " +:+ message)) w in
  setStatus "error" w.

(** Lines 37-43. *)
Definition upload_resume (o : Settled) (w : World) : World :=
  match o with
  | Rejected message => upload_catch message w
  | Responded _ j =>
      match get (Some j) "transcription" with
      | Throw message => upload_catch message w
      | Normal v =>
          let w := setTranscript (or_else v (JStr (JSON_stringify j))) w in
          setStatus "done" w
      end
  end.

(** *** stopRecording (lines 55-63) *)

Definition stopRecording (w : World) : World :=
  let w :=
    match mediaRecorderRef w with
    | Some r =>
        match recorders w !! r with
        | Some mr =>
            if is_recording (phase mr) then
              set_devices (<[r := {| stream := stream mr; phase := Stopping |}]> (recorders w))
                          (alter S (stream mr) (streams w)) w
            else w
        | None => w
        end
    | None => w
    end in
  let w := setRecording false w in
  setStatus "stopped" w.

(** *** Save to Google Drive (lines 84-105) *)

(** The request of lines 88-92. *)
Definition save_request (content : json) : Request :=
  {| url := "http://127.0.0.1:8000/save-transcript"; method := "POST";
     headers := [("Content-Type", "application/json")];
     body := Text (JSON_stringify
                     (JObj [("filename", JStr "transcript.txt");
                            ("content", content)])) |}.

(** Lines 85-92, up to the [await]. *)
Definition save_click (w : World) : World :=
  if negb (truthy (transcript w)) then w
  else
    let w := setStatus "saving" w in
    fetch Save (save_request (transcript w)) w.

(** [j.file.webViewLink || j.file.id]: the id is read only when the link
    is falsy. *)
Definition saved_reference (j : json) : completion jsval :=
  match get (Some j) "file" with
  | Throw message => Throw message
  | Normal file =>
      match get file "webViewLink" with
      | Throw message => Throw message
      | Normal link => if truthy_val link then Normal link else get file "id"
      end
  end.

(** What a transition leaves: the next world; or nothing, when an updater
    passed to a setter throws, which happens while React renders and
    unmounts the component; or the event is not one the browser can
    deliver now. *)
Inductive result :=
  | Next (w : World)
  | RenderThrows (message : string)
  | NotPending.

(** Lines 93-104.  The updaters [prev => prev + ...] run on the state
    current when the promise settles.  The one of line 96 reads [j.file]
    inside the updater, outside the [try]. *)
Definition save_resume (o : Settled) (w : World) : result :=
  match o with
  | Rejected message =>
      let w := setStatus "save_error" w in
      Next (setTranscript
              (js_append (transcript w) (nl +:+ nl +:+ "[Save error] " +:+ message)) w)
  | Responded true j =>
      let w := setStatus "saved" w in
      match saved_reference j with
      | Normal ref =>
          Next (setTranscript
                  (js_append (transcript w)
                     (nl +:+ nl +:+ "[Saved to Drive] " +:+ val_to_string ref)) w)
      | Throw message => RenderThrows message
      end
  | Responded false j =>
      let w := setStatus "save_error" w in
      Next (setTranscript
              (js_append (transcript w)
                 (nl +:+ nl +:+ "[Save error] " +:+ JSON_stringify j)) w)
  end.

(** *** Summarize (lines 113-135) *)

(** The request of lines 117-121. *)
Definition summarize_request (text : json) : Request :=
  {| url := "http://127.0.0.1:8000/summarize"; method := "POST";
     headers := [("Content-Type", "application/json")];
     body := Text (JSON_stringify
                     (JObj [("text", text); ("num_sentences", JNum 3)])) |}.

(** Lines 114-121, up to the [await]. *)
Definition summarize_click (w : World) : World :=
  if negb (truthy (transcript w)) then w
  else
    let w := setStatus "summarizing" w in
    fetch Summarize (summarize_request (transcript w)) w.

(** Lines 131-134. *)
Definition summarize_catch (message : string) (w : World) : World :=
  let w := setSummary (JStr ("Error summarizing: " +:+ message)) w in
  setStatus "summary_error" w.

(** Lines 122-134. *)
Definition summarize_resume (o : Settled) (w : World) : World :=
  match o with
  | Rejected message => summarize_catch message w
  | Responded true j =>
      match get (Some j) "summary" with
      | Throw message => summarize_catch message w
      | Normal s =>
          let w := setSummary (or_else s (JStr "")) w in
          match get (Some j) "action_items" with
          | Throw message => summarize_catch message w
          | Normal a =>
              let w := setActionItems (or_else a (JArr [])) w in
              setStatus "summarized" w
          end
      end
  | Responded false j =>
      let w := setSummary (JStr ("Error summarizing: " +:+ JSON_stringify j)) w in
      setStatus "summary_error" w
  end.

(** *** The buttons (lines 74-75, 106, 136) *)

Definition record_disabled (w : World) : bool := recording w.
Definition stop_disabled (w : World) : bool := negb (recording w).
Definition save_disabled (w : World) : bool :=
  negb (truthy (transcript w)) || String.eqb (status w) "saving".
Definition summarize_disabled (w : World) : bool :=
  negb (truthy (transcript w)) || String.eqb (status w) "summarizing".

(** ** Transitions *)

Inductive Event :=
  | ClickRecord
  | ClickStop
  | ClickSave
  | ClickSummarize
  | MicGranted (setup : Setup)              (* getUserMedia resolves *)
  | MicDenied (message : string)            (* getUserMedia rejects *)
  | RecorderData (r : nat) (data : option Blob)  (* dataavailable on recorder r *)
  | RecorderStop (r : nat)                  (* stop event of recorder r *)
  | UploadSettled (o : Settled)
  | SaveSettled (o : Settled)
  | SummarizeSettled (o : Settled).

(** A click on a disabled button runs no handler.  A promise settles only
    if one is pending; a recorder delivers data while it records or is
    stopping, and its [stop] event once after [stop()]. *)
Definition step (w : World) (e : Event) : result :=
  match e with
  | ClickRecord => Next (if record_disabled w then w else startRecording w)
  | ClickStop => Next (if stop_disabled w then w else stopRecording w)
  | ClickSave => Next (if save_disabled w then w else save_click w)
  | ClickSummarize => Next (if summarize_disabled w then w else summarize_click w)
  | MicGranted setup =>
      match micRequests w with
      | S n => Next (startRecording_resume setup
                       (set_pending n (uploads w) (saves w) (summaries w) w))
      | O => NotPending
      end
  | MicDenied message =>
      match micRequests w with
      | S n => Next (startRecording_catch message
                       (set_pending n (uploads w) (saves w) (summaries w) w))
      | O => NotPending
      end
  | RecorderData r data =>
      match recorders w !! r with
      | Some mr =>
          if is_recording (phase mr) || is_stopping (phase mr)
          then Next (ondataavailable data w) else NotPending
      | None => NotPending
      end
  | RecorderStop r =>
      match recorders w !! r with
      | Some mr =>
          if is_stopping (phase mr)
          then Next (onstop (set_devices
                               (<[r := {| stream := stream mr; phase := Inactive |}]> (recorders w))
                               (streams w) w))
          else NotPending
      | None => NotPending
      end
  | UploadSettled o =>
      match uploads w with
      | S n => Next (upload_resume o (set_pending (micRequests w) n (saves w) (summaries w) w))
      | O => NotPending
      end
  | SaveSettled o =>
      match saves w with
      | S n => save_resume o (set_pending (micRequests w) (uploads w) n (summaries w) w)
      | O => NotPending
      end
  | SummarizeSettled o =>
      match summaries w with
      | S n => Next (summarize_resume o (set_pending (micRequests w) (uploads w) (saves w) n w))
      | O => NotPending
      end
  end.

Fixpoint run (w : World) (trace : list Event) : result :=
  match trace with
  | [] => Next w
  | e :: rest =>
      match step w e with
      | Next w' => run w' rest
      | r => r
      end
  end.

Definition reachable (w : World) : Prop :=
  exists trace, run init trace = Next w.

(** Streams acquired, and calls that stopped a stream's tracks. *)
Definition acquire_count (w : World) : nat := length (streams w).
Definition release_count (w : World) : nat := sum_list (streams w).

(** ** Sample runs *)

(** The world a trace leads to from [init]; [init] itself if the trace
    does not run. *)
Definition after (trace : list Event) : World :=
  match run init trace with
  | Next w => w
  | _ => init
  end.

Definition bytes_of (n : nat) : list byte := repeat x00 n.

Definition chunk (n : nat) : Blob :=
  {| blob_type := "audio/webm"; blob_bytes := bytes_of n |}.

(** One recording, transcribed as [text]. *)
Definition record_once (text : string) : list Event :=
  [ClickRecord; MicGranted SetupOk; ClickStop;
   RecorderData 0 (Some (chunk 5)); RecorderStop 0;
   UploadSettled (Responded true (JObj [("transcription", JStr text)]))].

Definition summary_reply : json :=
  JObj [("summary", JStr "alpha."); ("action_items", JArr [JStr "buy milk"])].

Definition summarized : list Event :=
  record_once "alpha beta gamma" ++
  [ClickSummarize; SummarizeSettled (Responded true summary_reply)].

Definition drive_file : json := JObj [("file", JObj [("id", JStr "42")])].

(** A save still in flight when the next recording is under way. *)
Definition save_lands_while_recording : list Event :=
  record_once "hi" ++
  [ClickSave; ClickRecord; MicGranted SetupOk; SaveSettled (Responded true drive_file)].

(** Save and Summarize clicked one after the other. *)
Definition save_then_summarize : list Event :=
  record_once "hi" ++ [ClickSave; ClickSummarize].

(** Record clicked twice before the permission prompt is answered. *)
Definition double_start : list Event :=
  [ClickRecord; ClickRecord; MicGranted SetupOk; MicGranted SetupOk; ClickStop;
   RecorderData 1 (Some (chunk 5)); RecorderStop 1;
   UploadSettled (Responded true (JObj [("transcription", JStr "hi")]))].

(** The microphone is granted and the recorder cannot be constructed. *)
Definition setup_fails : list Event :=
  [ClickRecord; MicGranted (ConstructorThrows "NotSupportedError")].

(** ** Notions the statements use *)

(** The [dataavailable] events of recorder [r] carrying [chunks], in
    order. *)
Definition deliver (r : nat) (chunks : list Blob) : list Event :=
  map (fun c => RecorderData r (Some c)) chunks.

Definition nonempty (c : Blob) : bool := (0 <? size c)%nat.

(** The status reads [recording] only while the recording flag is set:
    lines 47-48 set both, and line 62 replaces the status when line 61
    clears the flag. *)
Definition flag_covers_status (w : World) : Prop :=
  status w = "recording" -> recording w = true.

(** The microphone side of a world: the recorders, the streams and the
    recorder the component holds on to. *)
Definition devices (w : World) : list MediaRecorder * list nat * option nat :=
  (recorders w, streams w, mediaRecorderRef w).

(** How the browser hands out recorders and streams: a recorder's stream
    exists, no two recorders share one, the stream of a recorder that is
    recording has not been stopped, and no stream has been stopped
    twice. *)
Definition well_formed (w : World) : Prop :=
  (forall r mr, recorders w !! r = Some mr -> stream mr < length (streams w)) /\
  (forall r1 r2 mr1 mr2,
     recorders w !! r1 = Some mr1 -> recorders w !! r2 = Some mr2 ->
     stream mr1 = stream mr2 -> r1 = r2) /\
  (forall r mr, recorders w !! r = Some mr -> phase mr = Recording ->
                streams w !! stream mr = Some 0) /\
  Forall (fun k => k <= 1) (streams w).

(** Stream [k] is live and no recorder holds it: the component has no way
    left to reach its tracks. *)
Definition leaked (k : nat) (w : World) : Prop :=
  streams w !! k = Some 0 /\
  forall r mr, recorders w !! r = Some mr -> stream mr <> k.

(** Recorder [r0] is recording and the component holds a later one: line
    18 has overwritten the only reference to it. *)
Definition orphaned (r0 : nat) (w : World) : Prop :=
  (exists mr, recorders w !! r0 = Some mr /\ phase mr = Recording) /\
  (forall r, mediaRecorderRef w = Some r -> r0 < r).

(** What one transition does to the microphone side. *)
Inductive devices_change (w w' : World) : Prop :=
  | Untouched :
      devices w' = devices w -> devices_change w w'
  | StreamOnly :
      devices w' = (recorders w, (streams w ++ [0])%list, mediaRecorderRef w) ->
      devices_change w w'
  | NewRecorder (p : Phase) :
      devices w' = ((recorders w ++ [{| stream := length (streams w); phase := p |}])%list,
                    (streams w ++ [0])%list, Some (length (recorders w))) ->
      devices_change w w'
  | Stopped (r : nat) (mr : MediaRecorder) :
      mediaRecorderRef w = Some r -> recorders w !! r = Some mr -> phase mr = Recording ->
      devices w' = (<[r := {| stream := stream mr; phase := Stopping |}]> (recorders w),
                    alter S (stream mr) (streams w), mediaRecorderRef w) ->
      devices_change w w'
  | StopDelivered (r : nat) (mr : MediaRecorder) :
      recorders w !! r = Some mr -> phase mr = Stopping ->
      devices w' = (<[r := {| stream := stream mr; phase := Inactive |}]> (recorders w),
                    streams w, mediaRecorderRef w) ->
      devices_change w w'.

(** Every string the component passes to [setStatus], with the initial
    one of line 8. *)
Definition statuses : list string :=
  ["idle"; "requesting_mic"; "recording"; "stopped"; "uploading"; "done";
   "error"; "mic_error"; "saving"; "saved"; "save_error"; "summarizing";
   "summarized"; "summary_error"].

(** The order in which a recorder goes through its phases. *)
Definition rank (p : Phase) : nat :=
  match p with
  | Recording => 0
  | Stopping => 1
  | Inactive => 2
  end.

(** Whenever the recorder in [mediaRecorderRef] is recording, the Stop
    button is enabled. *)
Definition held_recorder_can_be_stopped (w : World) : Prop :=
  forall r mr, mediaRecorderRef w = Some r -> recorders w !! r = Some mr ->
               phase mr = Recording -> stop_disabled w = false.

(** The transcript cell holds the empty string or something truthy. *)
Definition transcript_shown_or_empty (w : World) : Prop :=
  transcript w = JStr "" \/ truthy (transcript w) = true.

(** The three requests the component builds: an upload of buffered chunks,
    none of them empty, and a save or a summarize of a truthy transcript. *)
Definition built_by_component (r : Request) : Prop :=
  (exists chunks, Forall (fun c => nonempty c = true) chunks /\
                  r = upload_request (new_Blob chunks "audio/webm")) \/
  (exists content, truthy content = true /\ r = save_request content) \/
  (exists text, truthy text = true /\ r = summarize_request text).

(** The buffer holds no empty chunk and every request sent is one the
    component builds. *)
Definition clean_traffic (w : World) : Prop :=
  Forall (fun c => nonempty c = true) (chunksRef w) /\
  forall r, r ∈ network w -> built_by_component r.

(** A status that names an operation in flight is backed by a pending
    promise of that operation. *)
Definition status_is_backed (w : World) : Prop :=
  (status w = "requesting_mic" -> 1 <= micRequests w) /\
  (status w = "uploading" -> 1 <= uploads w) /\
  (status w = "saving" -> 1 <= saves w) /\
  (status w = "summarizing" -> 1 <= summaries w).

(** ** Running traces *)

Ltac break_match_in H :=
  match type of H with
  | context [match ?x with _ => _ end] => destruct x eqn:?
  end.

(** Case analysis on a transition [H : step w e = Next w']. *)
Ltac step_inv H :=
  unfold step in H; repeat break_match_in H; try discriminate H;
  try (injection H as <-).

Ltac break_goal_match :=
  match goal with
  | |- context [match ?x with _ => _ end] => destruct x
  end.

Ltac pick_status := solve [cbn; repeat (first [left; reflexivity | right])].

Ltac backed := unfold status_is_backed; cbn; repeat apply conj; intros; first [discriminate | lia].

Lemma run_app t1 t2 w :
  run w (t1 ++ t2) = match run w t1 with Next w' => run w' t2 | r => r end.
Proof.
  revert w. induction t1 as [|e t1 IH]; intros w; simpl; [reflexivity|].
  destruct (step w e); auto.
Qed.

(** A property kept by every transition holds along every run. *)
Lemma run_invariant (P : World -> Prop) :
  (forall w e w', P w -> step w e = Next w' -> P w') ->
  forall trace w w', P w -> run w trace = Next w' -> P w'.
Proof.
  intros Hstep trace. induction trace as [|e rest IH]; simpl; intros w w' HP Hrun.
  - congruence.
  - destruct (step w e) as [w1| |] eqn:E; try discriminate.
    eapply IH; [|exact Hrun]. eapply Hstep; eauto.
Qed.

(** ** Starting a recording *)

(** No transition other than the completion of a summarize request
    writes the summary or the action items: nothing in the component
    clears them. *)
Lemma summary_written_only_by_summarize (w w' : World) (e : Event) :
  step w e = Next w' ->
  (forall o, e <> SummarizeSettled o) ->
  summary w' = summary w /\ actionItems w' = actionItems w.
Proof.
  intros H Hne. destruct e; step_inv H; try (split; reflexivity).
  - unfold stopRecording.
    repeat match goal with |- context [match ?x with _ => _ end] => destruct x end;
      split; reflexivity.
  - unfold save_click. destruct (negb (truthy (transcript w))); split; reflexivity.
  - unfold summarize_click. destruct (negb (truthy (transcript w))); split; reflexivity.
  - destruct setup; split; reflexivity.
  - unfold ondataavailable.
    repeat match goal with |- context [match ?x with _ => _ end] => destruct x end;
      split; reflexivity.
  - unfold upload_resume.
    repeat match goal with |- context [match ?x with _ => _ end] => destruct x end;
      split; reflexivity.
  - unfold save_resume in H.
    repeat break_match_in H; try discriminate H; injection H as <-; split; reflexivity.
  - exfalso. exact (Hne o eq_refl).
Qed.



(** The text of a failed summarize is in the summary (lines 128, 132), and
    a click on Record leaves it there. *)
Example startRecording_keeps_summary_error :
  step (after (record_once "hi" ++ [ClickSummarize; SummarizeSettled (Rejected "Failed to fetch")]))
       ClickRecord
  = Next (startRecording
            (after (record_once "hi" ++
                    [ClickSummarize; SummarizeSettled (Rejected "Failed to fetch")]))) /\
  summary (startRecording
             (after (record_once "hi" ++
                     [ClickSummarize; SummarizeSettled (Rejected "Failed to fetch")])))
  = JStr ("Error summarizing: " +:+ "Failed to fetch").
Proof. repeat apply conj; vm_compute; reflexivity. Qed.

(** ** Errors *)

(** C3, as amended.  A refused or missing microphone, and a recorder that
    cannot be constructed or started, leave the status [mic_error]; a
    transcription request whose fetch or JSON parse rejects leaves the
    status [error].  Each time the message, after a fixed prefix, replaces
    the transcript.  (A reply that is JSON is not covered, whatever its
    status code: lines 37-39 do not read [res.ok].) *)
Theorem errors_set_status_and_transcript (w : World) (message : string) :
  let shown := JStr ("Microphone access denied or not available: " +:+ message) in
  status (startRecording_catch message w) = "mic_error" /\
  transcript (startRecording_catch message w) = shown /\
  status (startRecording_resume (ConstructorThrows message) w) = "mic_error" /\
  transcript (startRecording_resume (ConstructorThrows message) w) = shown /\
  status (startRecording_resume (StartThrows message) w) = "mic_error" /\
  transcript (startRecording_resume (StartThrows message) w) = shown /\
  status (upload_resume (Rejected message) w) = "error" /\
  transcript (upload_resume (Rejected message) w)
    = JStr ("Error uploading/transcribing: " +:+ message).
Proof. repeat apply conj; reflexivity. Qed.

(** C3, counterexample.  A refused microphone and a rejected upload do
    not set [device_error] and [upload_error]; and a transcription request
    answered with an error status and a JSON body sets no error status at
    all: lines 37-39 do not read [res.ok], as lines 94 and 123 do, and the
    status is [done]. *)
Lemma errors_not_mapped_as_claimed :
  step (after [ClickRecord]) (MicDenied "Permission denied")
    = Next (startRecording_catch "Permission denied" init) /\
  status (startRecording_catch "Permission denied" init) = "mic_error" /\
  status (startRecording_catch "Permission denied" init) <> "device_error" /\
  step (after [ClickRecord; MicGranted SetupOk; ClickStop; RecorderStop 0])
       (UploadSettled (Rejected "Failed to fetch"))
    = Next (after [ClickRecord; MicGranted SetupOk; ClickStop; RecorderStop 0;
                   UploadSettled (Rejected "Failed to fetch")]) /\
  status (after [ClickRecord; MicGranted SetupOk; ClickStop; RecorderStop 0;
                 UploadSettled (Rejected "Failed to fetch")]) = "error" /\
  status (after [ClickRecord; MicGranted SetupOk; ClickStop; RecorderStop 0;
                 UploadSettled (Rejected "Failed to fetch")]) <> "upload_error" /\
  step (after [ClickRecord; MicGranted SetupOk; ClickStop; RecorderStop 0])
       (UploadSettled (Responded false (JObj [("detail", JStr "Internal Server Error")])))
    = Next (after [ClickRecord; MicGranted SetupOk; ClickStop; RecorderStop 0;
                   UploadSettled
                     (Responded false (JObj [("detail", JStr "Internal Server Error")]))]) /\
  status (after [ClickRecord; MicGranted SetupOk; ClickStop; RecorderStop 0;
                 UploadSettled
                   (Responded false (JObj [("detail", JStr "Internal Server Error")]))])
  = "done" /\
  transcript (after [ClickRecord; MicGranted SetupOk; ClickStop; RecorderStop 0;
                     UploadSettled
                       (Responded false (JObj [("detail", JStr "Internal Server Error")]))])
  = JStr (JSON_stringify (JObj [("detail", JStr "Internal Server Error")])).
Proof. repeat apply conj; vm_compute; first [reflexivity | discriminate]. Qed.

(** ** Transcription *)

(** C8, as amended.  When the response body is a JSON value other than
    [null] and has no [transcription] property (an object without it, or an
    array, string, number or boolean), the transcript becomes the
    [JSON.stringify] of the whole body and the status [done]. *)
Theorem transcription_absent (w : World) (n : nat) (ok : bool) (j : json) :
  uploads w = S n ->
  j <> JNull ->
  (forall props, j = JObj props -> lookup_prop "transcription" props = None) ->
  exists w', step w (UploadSettled (Responded ok j)) = Next w' /\
             transcript w' = JStr (JSON_stringify j) /\
             status w' = "done".
Proof.
  intros Hup Hnull Hobj.
  assert (get (Some j) "transcription" = Normal None) as Hget.
  { destruct j; try reflexivity; [contradiction|].
    unfold get. rewrite (Hobj props eq_refl). reflexivity. }
  unfold step. rewrite Hup. eexists. split; [reflexivity|].
  unfold upload_resume. rewrite Hget. split; reflexivity.
Qed.

Lemma transcription_absent_witness :
  exists w',
    step (after [ClickRecord; MicGranted SetupOk; ClickStop; RecorderStop 0])
         (UploadSettled (Responded true (JObj [("unexpected", JStr "shape")]))) = Next w' /\
    transcript w' = JStr (JSON_stringify (JObj [("unexpected", JStr "shape")])) /\
    status w' = "done".
Proof.
  apply (transcription_absent
           (after [ClickRecord; MicGranted SetupOk; ClickStop; RecorderStop 0]) 0).
  - reflexivity.
  - discriminate.
  - intros props [= <-]. reflexivity.
Defined.

(** C8, counterexample.  The body [null] is JSON without the field, and
    reading [json.transcription] on it throws: the catch of lines 40-43
    runs, the status is [error] and the transcript is the text of the
    exception, not the stringified body. *)
Lemma transcription_absent_null :
  step (after [ClickRecord; MicGranted SetupOk; ClickStop; RecorderStop 0])
       (UploadSettled (Responded true JNull))
  = Next (after [ClickRecord; MicGranted SetupOk; ClickStop; RecorderStop 0;
                 UploadSettled (Responded true JNull)]) /\
  status (after [ClickRecord; MicGranted SetupOk; ClickStop; RecorderStop 0;
                 UploadSettled (Responded true JNull)]) = "error" /\
  status (after [ClickRecord; MicGranted SetupOk; ClickStop; RecorderStop 0;
                 UploadSettled (Responded true JNull)]) <> "done" /\
  transcript (after [ClickRecord; MicGranted SetupOk; ClickStop; RecorderStop 0;
                     UploadSettled (Responded true JNull)])
  = JStr ("Error uploading/transcribing: " +:+ TypeError_message "null" "transcription") /\
  transcript (after [ClickRecord; MicGranted SetupOk; ClickStop; RecorderStop 0;
                     UploadSettled (Responded true JNull)])
  <> JStr (JSON_stringify JNull).
Proof. repeat apply conj; vm_compute; first [reflexivity | discriminate]. Qed.

(** The scenario of the specification, spelled out. *)
Example unexpected_shape :
  JSON_stringify (JObj [("unexpected", JStr "shape")])
  = "{" +:+ dquote +:+ "unexpected" +:+ dquote +:+ ":" +:+ dquote +:+ "shape" +:+ dquote +:+ "}".
Proof. reflexivity. Qed.

(** The body [null] has no properties to read: line 38 throws and the
    catch of lines 40-43 runs. *)
Example null_body (ok : bool) :
  status (upload_resume (Responded ok JNull) init) = "error" /\
  transcript (upload_resume (Responded ok JNull) init)
  = JStr ("Error uploading/transcribing: " +:+ TypeError_message "null" "transcription").
Proof. split; reflexivity. Qed.

(** C9.  When the response body has a [transcription] property equal to
    the empty string, the transcript becomes the [JSON.stringify] of the
    whole body, not the empty string, and the status [done]. *)
Theorem transcription_empty (w : World) (n : nat) (ok : bool) (j : json) :
  uploads w = S n ->
  get (Some j) "transcription" = Normal (Some (JStr "")) ->
  exists w', step w (UploadSettled (Responded ok j)) = Next w' /\
             transcript w' = JStr (JSON_stringify j) /\
             transcript w' <> JStr "" /\
             status w' = "done".
Proof.
  intros Hup Hget. unfold step. rewrite Hup. eexists. split; [reflexivity|].
  unfold upload_resume. rewrite Hget.
  repeat apply conj; try reflexivity.
  destruct j; try discriminate Hget. cbn. discriminate.
Qed.

Lemma transcription_empty_witness :
  exists w',
    step (after [ClickRecord; MicGranted SetupOk; ClickStop; RecorderStop 0])
         (UploadSettled (Responded true (JObj [("transcription", JStr "")]))) = Next w' /\
    transcript w' = JStr (JSON_stringify (JObj [("transcription", JStr "")])) /\
    transcript w' <> JStr "" /\
    status w' = "done".
Proof.
  apply (transcription_empty
           (after [ClickRecord; MicGranted SetupOk; ClickStop; RecorderStop 0]) 0);
    reflexivity.
Defined.

(** ** Saving *)

(** C4, as amended.  When a save request settles with a rejection, with a
    reply that is not [ok], or with an [ok] reply whose [file] can be read,
    the transcript cell itself is rewritten: its previous text, a blank
    line, then [[Saved to Drive]] with the link or id on success, or
    [[Save error]] with the payload or message on failure.  The summary,
    the action items and the recording flag are left alone. *)
Theorem save_resume_appends (o : Settled) (w : World) (n : nat) :
  saves w = S n ->
  match o with
  | Responded true j => exists ref, saved_reference j = Normal ref
  | _ => True
  end ->
  exists w',
    step w (SaveSettled o) = Next w' /\
    (exists note,
       transcript w' = JStr (js_to_string (transcript w) +:+ nl +:+ nl +:+ note) /\
       match o with
       | Rejected message =>
           note = "[Save error] " +:+ message /\ status w' = "save_error"
       | Responded true j =>
           (exists ref, saved_reference j = Normal ref /\
                        note = "[Saved to Drive] " +:+ val_to_string ref) /\
           status w' = "saved"
       | Responded false j =>
           note = "[Save error] " +:+ JSON_stringify j /\ status w' = "save_error"
       end) /\
    summary w' = summary w /\ actionItems w' = actionItems w /\ recording w' = recording w.
Proof.
  intros Hn Hread. unfold step. rewrite Hn.
  destruct o as [message | [] j]; unfold save_resume.
  - eexists. split; [reflexivity|]. split; [|repeat apply conj; reflexivity].
    eexists. split; [reflexivity|]. split; reflexivity.
  - destruct Hread as [ref E]. rewrite E.
    eexists. split; [reflexivity|]. split; [|repeat apply conj; reflexivity].
    eexists. split; [reflexivity|]. split; [|reflexivity]. exists ref. split; reflexivity.
  - eexists. split; [reflexivity|]. split; [|repeat apply conj; reflexivity].
    eexists. split; [reflexivity|]. split; reflexivity.
Qed.

Lemma save_resume_appends_witness :
  exists w',
    step (after (record_once "hi" ++ [ClickSave])) (SaveSettled (Responded true drive_file))
    = Next w' /\
    (exists note,
       transcript w'
       = JStr (js_to_string (transcript (after (record_once "hi" ++ [ClickSave])))
               +:+ nl +:+ nl +:+ note) /\
       (exists ref, saved_reference drive_file = Normal ref /\
                    note = "[Saved to Drive] " +:+ val_to_string ref) /\
       status w' = "saved") /\
    summary w' = summary (after (record_once "hi" ++ [ClickSave])) /\
    actionItems w' = actionItems (after (record_once "hi" ++ [ClickSave])) /\
    recording w' = recording (after (record_once "hi" ++ [ClickSave])).
Proof.
  apply (save_resume_appends (Responded true drive_file)
           (after (record_once "hi" ++ [ClickSave])) 0).
  - reflexivity.
  - exists (Some (JStr "42")). reflexivity.
Defined.

(** C4, counterexample.  A transcript [hi] saved with success: the stored
    transcript is no longer [hi], and the next save sends the annotated
    text as the file's content. *)
Lemma save_rewrites_transcript :
  transcript (after (record_once "hi" ++ [ClickSave])) = JStr "hi" /\
  step (after (record_once "hi" ++ [ClickSave])) (SaveSettled (Responded true drive_file))
  = Next (after (record_once "hi" ++ [ClickSave; SaveSettled (Responded true drive_file)])) /\
  transcript (after (record_once "hi" ++ [ClickSave; SaveSettled (Responded true drive_file)]))
  = JStr ("hi" +:+ nl +:+ nl +:+ "[Saved to Drive] 42") /\
  transcript (after (record_once "hi" ++ [ClickSave; SaveSettled (Responded true drive_file)]))
  <> JStr "hi" /\
  last (network (after (record_once "hi" ++
                        [ClickSave; SaveSettled (Responded true drive_file); ClickSave])))
  = Some (save_request (JStr ("hi" +:+ nl +:+ nl +:+ "[Saved to Drive] 42"))).
Proof. repeat apply conj; vm_compute; first [reflexivity | discriminate]. Qed.

(** ** The Record and Stop buttons *)

Lemma flag_covers_status_step w e w' :
  flag_covers_status w -> step w e = Next w' -> flag_covers_status w'.
Proof.
  unfold flag_covers_status. intros Inv H.
  destruct e; step_inv H; try (exact Inv); try (cbn; discriminate).
  - (* ClickSave *) unfold save_click.
    destruct (negb (truthy (transcript w))); [exact Inv | cbn; discriminate].
  - (* ClickSummarize *) unfold summarize_click.
    destruct (negb (truthy (transcript w))); [exact Inv | cbn; discriminate].
  - (* MicGranted *) destruct setup; cbn; intros; try reflexivity; discriminate.
  - (* RecorderData *) unfold ondataavailable. destruct data as [b|]; [|exact Inv].
    destruct (0 <? size b)%nat; exact Inv.
  - (* UploadSettled *) unfold upload_resume. destruct o as [m | ok j]; [cbn; discriminate|].
    destruct (get (Some j) "transcription"); cbn; discriminate.
  - (* SaveSettled *) unfold save_resume in H. destruct o as [m | [] j].
    + injection H as <-. cbn; discriminate.
    + destruct (saved_reference j); [|discriminate]. injection H as <-. cbn; discriminate.
    + injection H as <-. cbn; discriminate.
  - (* SummarizeSettled *) unfold summarize_resume. destruct o as [m | [] j]; try (cbn; discriminate).
    destruct (get (Some j) "summary"); [|cbn; discriminate].
    destruct (get (Some j) "action_items"); cbn; discriminate.
Qed.

Lemma reachable_flag_covers_status w : reachable w -> flag_covers_status w.
Proof.
  intros [trace H]. eapply (run_invariant flag_covers_status); [|exact (fun (E : status init = "recording") => ltac:(discriminate E))|exact H].
  intros; eapply flag_covers_status_step; eauto.
Qed.

(** C5, as amended.  The guards are the [disabled] attributes of the two
    buttons, both on the recording flag: in every reachable state a click
    on Stop changes nothing unless the flag is set, and a click on Record
    changes nothing while the flag is set, which includes every state
    whose status is [recording]. *)
Theorem guarded_clicks (w : World) (e : Event) :
  reachable w ->
  (e = ClickStop /\ recording w = false) \/
  (e = ClickRecord /\ (recording w = true \/ status w = "recording")) ->
  step w e = Next w.
Proof.
  intros Hreach [[-> Hflag] | [-> Hrec]]; unfold step.
  - unfold stop_disabled. rewrite Hflag. reflexivity.
  - assert (recording w = true) as Hflag.
    { destruct Hrec as [H | H]; [exact H|].
      exact (reachable_flag_covers_status w Hreach H). }
    unfold record_disabled. rewrite Hflag. reflexivity.
Qed.

Lemma guarded_clicks_witness :
  step init ClickStop = Next init /\
  step (after [ClickRecord; MicGranted SetupOk]) ClickRecord
  = Next (after [ClickRecord; MicGranted SetupOk]).
Proof.
  split.
  - apply (guarded_clicks init ClickStop).
    + exists []. reflexivity.
    + left. split; reflexivity.
  - apply (guarded_clicks (after [ClickRecord; MicGranted SetupOk]) ClickRecord).
    + exists [ClickRecord; MicGranted SetupOk]. reflexivity.
    + right. split; [reflexivity|]. right. reflexivity.
Defined.

(** C5, counterexample.  A save requested after the first recording
    settles during the second one: the status reads [saved], the
    recording flag is set, the Stop button is enabled, and the click stops
    the recorder and moves the status to [stopped].  The handler itself
    has no guard either: called in the initial state it sets the status to
    [stopped]. *)
Lemma stop_acts_when_status_is_not_recording :
  run init save_lands_while_recording = Next (after save_lands_while_recording) /\
  status (after save_lands_while_recording) = "saved" /\
  status (after save_lands_while_recording) <> "recording" /\
  step (after save_lands_while_recording) ClickStop
  = Next (stopRecording (after save_lands_while_recording)) /\
  step (after save_lands_while_recording) ClickStop
  <> Next (after save_lands_while_recording) /\
  status (stopRecording (after save_lands_while_recording)) = "stopped" /\
  release_count (stopRecording (after save_lands_while_recording))
  = S (release_count (after save_lands_while_recording)) /\
  status (stopRecording init) = "stopped" /\
  stopRecording init <> init.
Proof.
  repeat apply conj; vm_compute; first [reflexivity | discriminate].
Qed.

(** ** Save and Summarize side by side *)

#[local] Arguments get : simpl never.
#[local] Arguments saved_reference : simpl never.

(** C6, as amended.  With a save and a summarize request both in flight,
    the two completions touch different result cells (the save only the
    transcript, the summarize only the summary and the action items) and
    settle to the same state in either order, the status apart: the status
    is one cell that both write, and it ends as whichever completion came
    last left it. *)
Theorem save_and_summarize_commute (w wa wa' wb wb' : World) (o1 o2 : Settled) :
  step w (SaveSettled o1) = Next wa ->
  step wa (SummarizeSettled o2) = Next wa' ->
  step w (SummarizeSettled o2) = Next wb ->
  step wb (SaveSettled o1) = Next wb' ->
  setStatus "" wa' = setStatus "" wb' /\
  summary wa = summary w /\ actionItems wa = actionItems w /\
  transcript wb = transcript w /\
  status wa' = status wb /\ status wb' = status wa.
Proof.
  intros H1 H2 H3 H4. destruct w. unfold step in H1, H3. cbn in H1, H3.
  destruct saves0 as [|s]; [discriminate|]. destruct summaries0 as [|z]; [discriminate|].
  injection H3 as <-.
  destruct o1 as [m | [] j]; cbn in H1;
    [ | destruct (saved_reference j) as [ref|] eqn:Eref; [|discriminate] | ];
    injection H1 as <-; unfold step in H2, H4; cbn in H2, H4;
    injection H2 as <-;
    (destruct o2 as [m2 | [] j2]; cbn in H4 |- *;
     [ | destruct (get (Some j2) "summary") as [sv|]; cbn in H4 |- *;
         [destruct (get (Some j2) "action_items") as [av|]; cbn in H4 |- * | ] | ]);
    rewrite ?Eref in H4; injection H4 as <-; repeat apply conj; reflexivity.
Qed.

Lemma save_and_summarize_commute_witness :
  setStatus "" (after (save_then_summarize ++
                       [SaveSettled (Responded true drive_file);
                        SummarizeSettled (Responded true summary_reply)]))
  = setStatus "" (after (save_then_summarize ++
                         [SummarizeSettled (Responded true summary_reply);
                          SaveSettled (Responded true drive_file)])) /\
  summary (after (save_then_summarize ++ [SaveSettled (Responded true drive_file)]))
  = summary (after save_then_summarize) /\
  actionItems (after (save_then_summarize ++ [SaveSettled (Responded true drive_file)]))
  = actionItems (after save_then_summarize) /\
  transcript (after (save_then_summarize ++ [SummarizeSettled (Responded true summary_reply)]))
  = transcript (after save_then_summarize) /\
  status (after (save_then_summarize ++
                 [SaveSettled (Responded true drive_file);
                  SummarizeSettled (Responded true summary_reply)]))
  = status (after (save_then_summarize ++ [SummarizeSettled (Responded true summary_reply)])) /\
  status (after (save_then_summarize ++
                 [SummarizeSettled (Responded true summary_reply);
                  SaveSettled (Responded true drive_file)]))
  = status (after (save_then_summarize ++ [SaveSettled (Responded true drive_file)])).
Proof.
  apply (save_and_summarize_commute (after save_then_summarize) _ _ _ _
           (Responded true drive_file) (Responded true summary_reply));
    vm_compute; reflexivity.
Defined.

(** C6, counterexample.  Save, then Summarize before the save has
    settled: a save is in flight and the status reads [summarizing], so
    the Save button is enabled again and a second click sends a second
    save.  When the first save settles the status reads [saved] with the
    summarize request still in flight, and the Summarize button is enabled
    again. *)
Lemma status_is_shared_by_save_and_summarize :
  run init save_then_summarize = Next (after save_then_summarize) /\
  saves (after save_then_summarize) = 1 /\
  summaries (after save_then_summarize) = 1 /\
  status (after save_then_summarize) = "summarizing" /\
  save_disabled (after save_then_summarize) = false /\
  saves (after (save_then_summarize ++ [ClickSave])) = 2 /\
  run init (save_then_summarize ++ [SaveSettled (Responded true drive_file)])
  = Next (after (save_then_summarize ++ [SaveSettled (Responded true drive_file)])) /\
  summaries (after (save_then_summarize ++ [SaveSettled (Responded true drive_file)])) = 1 /\
  status (after (save_then_summarize ++ [SaveSettled (Responded true drive_file)])) = "saved" /\
  summarize_disabled (after (save_then_summarize ++ [SaveSettled (Responded true drive_file)]))
  = false.
Proof. repeat apply conj; vm_compute; reflexivity. Qed.

(** ** The recording *)

Lemma set_refs_same w : set_refs (mediaRecorderRef w) (chunksRef w) w = w.
Proof. destruct w; reflexivity. Qed.

(** Chunks delivered to a recorder that records or is stopping are
    appended to the buffer, the empty ones left out; nothing else
    changes. *)
Lemma run_deliver (r : nat) (mr : MediaRecorder) (chunks : list Blob) (w : World) :
  recorders w !! r = Some mr ->
  is_recording (phase mr) || is_stopping (phase mr) = true ->
  run w (deliver r chunks)
  = Next (set_refs (mediaRecorderRef w) (chunksRef w ++ List.filter nonempty chunks) w).
Proof.
  intros Hr Hp. revert w Hr.
  induction chunks as [|c chunks IH]; intros w Hr; simpl.
  - rewrite app_nil_r, set_refs_same. reflexivity.
  - rewrite Hr, Hp. unfold ondataavailable. fold (nonempty c).
    destruct (nonempty c).
    + rewrite IH by exact Hr. simpl. rewrite <- app_assoc. reflexivity.
    + apply IH, Hr.
Qed.

(** An empty chunk adds no bytes, so leaving it out of the buffer leaves
    the payload as the concatenation of everything delivered. *)
Lemma payload_of_nonempty (chunks : list Blob) :
  concat (map blob_bytes (List.filter nonempty chunks)) = concat (map blob_bytes chunks).
Proof.
  induction chunks as [|c chunks IH]; simpl; [reflexivity|].
  destruct (nonempty c) eqn:E; simpl; rewrite IH; [reflexivity|].
  unfold nonempty, size in E. destruct (blob_bytes c); [reflexivity|discriminate].
Qed.

Lemma insert_snoc {A} (l : list A) (x y : A) :
  <[length l := y]> (l ++ [x])%list = (l ++ [y])%list.
Proof. induction l as [|a l IH]; simpl; [reflexivity|]. f_equal. exact IH. Qed.

Lemma lookup_snoc {A} (l : list A) (x : A) : (l ++ [x])%list !! length l = Some x.
Proof. induction l as [|a l IH]; simpl; [reflexivity|exact IH]. Qed.

(** C7.  From the grant of the microphone to the [stop] event of the
    recorder, whatever chunks are delivered before and after the click on
    Stop, the blob uploaded as [meeting.webm] holds the bytes of all of
    them in order of arrival; the empty ones are not buffered and add
    nothing. *)
Theorem recording_is_concatenation (w : World) (n : nat) (early late : list Blob) :
  micRequests w = S n ->
  exists w',
    run w ([MicGranted SetupOk] ++ deliver (length (recorders w)) early ++ [ClickStop]
           ++ deliver (length (recorders w)) late ++ [RecorderStop (length (recorders w))])
    = Next w' /\
    chunksRef w' = List.filter nonempty (early ++ late) /\
    last (network w')
    = Some (upload_request {| blob_type := "audio/webm";
                              blob_bytes := concat (map blob_bytes (early ++ late)) |}) /\
    status w' = "uploading".
Proof.
  intros Hm. destruct w. simpl in Hm. subst micRequests0.
  cbn [app run step micRequests recorders uploads saves summaries].
  unfold startRecording_resume. cbn. rewrite insert_snoc.
  rewrite run_app. erewrite run_deliver; [|cbn; apply lookup_snoc|reflexivity].
  cbn. unfold stopRecording. cbn. rewrite lookup_snoc. cbn. rewrite insert_snoc.
  rewrite run_app. erewrite run_deliver; [|cbn; apply lookup_snoc|reflexivity].
  cbn. rewrite lookup_snoc. cbn.
  eexists. split; [reflexivity|]. cbn.
  rewrite last_snoc, <- List.filter_app. unfold new_Blob. rewrite payload_of_nonempty.
  repeat apply conj; reflexivity.
Qed.

Lemma recording_is_concatenation_witness :
  exists w',
    run (after [ClickRecord])
        ([MicGranted SetupOk] ++ deliver 0 [] ++ [ClickStop]
         ++ deliver 0 [chunk 5; chunk 0; chunk 7] ++ [RecorderStop 0])
    = Next w' /\
    chunksRef w' = List.filter nonempty ([] ++ [chunk 5; chunk 0; chunk 7]) /\
    last (network w')
    = Some (upload_request
              {| blob_type := "audio/webm";
                 blob_bytes := concat (map blob_bytes ([] ++ [chunk 5; chunk 0; chunk 7])) |}) /\
    status w' = "uploading".
Proof.
  apply (recording_is_concatenation (after [ClickRecord]) 0 [] [chunk 5; chunk 0; chunk 7]).
  reflexivity.
Defined.

(** The scenario of the specification: chunks of 5, 0 and 7 bytes make a
    recording of 12 bytes out of the two chunks that were buffered, and the
    status goes from [uploading] to [done]. *)
Example five_zero_seven :
  exists w',
    run init ([ClickRecord; MicGranted SetupOk; ClickStop]
              ++ deliver 0 [chunk 5; chunk 0; chunk 7] ++ [RecorderStop 0]) = Next w' /\
    chunksRef w' = [chunk 5; chunk 7] /\
    last (network w')
    = Some (upload_request {| blob_type := "audio/webm"; blob_bytes := bytes_of 12 |}) /\
    length (bytes_of 12) = 12 /\
    status w' = "uploading" /\
    exists w'', step w' (UploadSettled (Responded true (JObj [("transcription", JStr "hi")])))
                = Next w'' /\ status w'' = "done" /\ transcript w'' = JStr "hi".
Proof.
  eexists. split; [vm_compute; reflexivity|].
  repeat apply conj; try (vm_compute; reflexivity).
  eexists. split; [vm_compute; reflexivity|]. split; reflexivity.
Qed.

(** ** Summarizing *)

(** What a click on an enabled Summarize button sends. *)
Lemma summarize_click_sends (w : World) :
  summarize_disabled w = false ->
  step w ClickSummarize = Next (summarize_click w) /\
  network (summarize_click w) = (network w ++ [summarize_request (transcript w)])%list /\
  summaries (summarize_click w) = S (summaries w) /\
  status (summarize_click w) = "summarizing".
Proof.
  intros H. unfold step. rewrite H. split; [reflexivity|].
  unfold summarize_disabled in H. apply orb_false_elim in H as [H _].
  unfold summarize_click. rewrite H. repeat apply conj; reflexivity.
Qed.

Lemma network_upload_resume o w : network (upload_resume o w) = network w.
Proof.
  unfold upload_resume. destruct o as [m | ok j]; [reflexivity|].
  destruct (get (Some j) "transcription"); reflexivity.
Qed.

Lemma network_summarize_resume o w : network (summarize_resume o w) = network w.
Proof.
  unfold summarize_resume. destruct o as [m | [] j]; try reflexivity.
  destruct (get (Some j) "summary"); [|reflexivity].
  destruct (get (Some j) "action_items"); reflexivity.
Qed.

Lemma network_save_resume o w w' : save_resume o w = Next w' -> network w' = network w.
Proof.
  unfold save_resume. destruct o as [m | [] j].
  - intros [= <-]. reflexivity.
  - destruct (saved_reference j); [|discriminate]. intros [= <-]. reflexivity.
  - intros [= <-]. reflexivity.
Qed.

Lemma network_startRecording_resume setup w :
  network (startRecording_resume setup w) = network w.
Proof. destruct setup; reflexivity. Qed.

Lemma network_stopRecording w : network (stopRecording w) = network w.
Proof.
  unfold stopRecording. destruct (mediaRecorderRef w) as [r|]; [|reflexivity].
  destruct (recorders w !! r) as [mr|]; [|reflexivity].
  destruct (is_recording (phase mr)); reflexivity.
Qed.

Lemma network_ondataavailable data w : network (ondataavailable data w) = network w.
Proof.
  unfold ondataavailable. destruct data as [b|]; [|reflexivity].
  destruct (0 <? size b)%nat; reflexivity.
Qed.

(** What one transition adds to the requests sent: nothing, or one of the
    three requests the component builds. *)
Lemma network_step w e w' :
  step w e = Next w' ->
  network w' = network w \/
  (exists blob, network w' = (network w ++ [upload_request blob])%list) \/
  (exists content, network w' = (network w ++ [save_request content])%list) \/
  (exists text, network w' = (network w ++ [summarize_request text])%list).
Proof.
  intros H. destruct e; step_inv H; try (left; reflexivity).
  - left. apply network_stopRecording.
  - unfold save_click. destruct (negb (truthy (transcript w))); [left; reflexivity|].
    right; right; left. eexists. reflexivity.
  - unfold summarize_click. destruct (negb (truthy (transcript w))); [left; reflexivity|].
    right; right; right. eexists. reflexivity.
  - left. rewrite network_startRecording_resume. reflexivity.
  - left. apply network_ondataavailable.
  - right; left. eexists. reflexivity.
  - left. rewrite network_upload_resume. reflexivity.
  - left. rewrite (network_save_resume _ _ _ H). reflexivity.
  - left. rewrite network_summarize_resume. reflexivity.
Qed.

(** C10.  Every request that ever goes to the summarize endpoint carries
    the body [JSON.stringify({ text, num_sentences: 3 })]: the count is the
    constant 3 whatever the text, and no input of the component reaches
    it. *)
Theorem summarize_asks_for_three_sentences (w : World) (r : Request) :
  reachable w ->
  r ∈ network w ->
  url r = "http://127.0.0.1:8000/summarize" ->
  exists text,
    body r = Text (JSON_stringify (JObj [("text", text); ("num_sentences", JNum 3)])).
Proof.
  intros [trace Hrun]. revert r.
  apply (run_invariant
           (fun w => forall r, r ∈ network w -> url r = "http://127.0.0.1:8000/summarize" ->
              exists text, body r = Text (JSON_stringify
                                            (JObj [("text", text); ("num_sentences", JNum 3)])))
           ) with (trace := trace) (w := init); [|intros r Hin; inversion Hin|exact Hrun].
  clear. intros w e w' Inv Hstep r Hin Hurl.
  destruct (network_step _ _ _ Hstep) as [E | [[b E] | [[c E] | [t E]]]];
    rewrite E in Hin; [auto|..]; apply elem_of_app in Hin as [Hin | Hin]; auto;
    apply list_elem_of_singleton in Hin; subst r; try discriminate Hurl.
  exists t. reflexivity.
Qed.

Lemma summarize_asks_for_three_sentences_witness :
  exists text,
    body (summarize_request (JStr "alpha beta gamma"))
    = Text (JSON_stringify (JObj [("text", text); ("num_sentences", JNum 3)])).
Proof.
  apply (summarize_asks_for_three_sentences (after summarized)
           (summarize_request (JStr "alpha beta gamma"))).
  - exists summarized. vm_compute. reflexivity.
  - vm_compute. apply list_elem_of_further, list_elem_of_here.
  - reflexivity.
Defined.

(** ** The microphone *)

Lemma devices_upload_resume o w : devices (upload_resume o w) = devices w.
Proof.
  unfold upload_resume. destruct o as [m | ok j]; [reflexivity|].
  destruct (get (Some j) "transcription"); reflexivity.
Qed.

Lemma devices_summarize_resume o w : devices (summarize_resume o w) = devices w.
Proof.
  unfold summarize_resume. destruct o as [m | [] j]; try reflexivity.
  destruct (get (Some j) "summary"); [|reflexivity].
  destruct (get (Some j) "action_items"); reflexivity.
Qed.

Lemma devices_save_resume o w w' : save_resume o w = Next w' -> devices w' = devices w.
Proof.
  unfold save_resume. destruct o as [m | [] j].
  - intros [= <-]. reflexivity.
  - destruct (saved_reference j); [|discriminate]. intros [= <-]. reflexivity.
  - intros [= <-]. reflexivity.
Qed.

Lemma devices_ondataavailable data w : devices (ondataavailable data w) = devices w.
Proof.
  unfold ondataavailable. destruct data as [b|]; [|reflexivity].
  destruct (0 <? size b)%nat; reflexivity.
Qed.

Lemma devices_save_click w : devices (save_click w) = devices w.
Proof. unfold save_click. destruct (negb (truthy (transcript w))); reflexivity. Qed.

Lemma devices_summarize_click w : devices (summarize_click w) = devices w.
Proof. unfold summarize_click. destruct (negb (truthy (transcript w))); reflexivity. Qed.

Lemma devices_stopRecording w :
  devices_change w (stopRecording w).
Proof.
  unfold stopRecording.
  destruct (mediaRecorderRef w) as [r|] eqn:Er; [|apply Untouched; unfold devices; cbn; rewrite Er; reflexivity].
  destruct (recorders w !! r) as [mr|] eqn:Emr; [|apply Untouched; unfold devices; cbn; rewrite Er; reflexivity].
  destruct (phase mr) eqn:Ep; cbn;
    try (apply Untouched; unfold devices; cbn; rewrite Er; reflexivity).
  apply (Stopped w _ r mr); auto.
Qed.

Lemma devices_step w e w' : step w e = Next w' -> devices_change w w'.
Proof.
  intros H. destruct e; step_inv H; try (apply Untouched; reflexivity).
  - apply devices_stopRecording.
  - apply Untouched, devices_save_click.
  - apply Untouched, devices_summarize_click.
  - destruct setup.
    + apply (NewRecorder _ _ Recording). unfold devices, startRecording_resume. cbn.
      rewrite insert_snoc. reflexivity.
    + apply StreamOnly. reflexivity.
    + apply (NewRecorder _ _ Inactive). reflexivity.
  - apply Untouched, devices_ondataavailable.
  - destruct (phase m) eqn:Ep; try discriminate. eapply StopDelivered; eauto.
  - apply Untouched. rewrite devices_upload_resume. reflexivity.
  - apply Untouched. rewrite (devices_save_resume _ _ _ H). reflexivity.
  - apply Untouched. rewrite devices_summarize_resume. reflexivity.
Qed.

(** Replacing the phase of recorder [r] keeps every recorder's stream. *)
Lemma lookup_rephase (rs : list MediaRecorder) (r r' : nat) (mr mr' : MediaRecorder) (p : Phase) :
  rs !! r = Some mr ->
  <[r := {| stream := stream mr; phase := p |}]> rs !! r' = Some mr' ->
  exists mr0, rs !! r' = Some mr0 /\ stream mr' = stream mr0 /\
              ((r' = r /\ phase mr' = p) \/ (r' <> r /\ mr' = mr0)).
Proof.
  intros Hr H. apply list_lookup_insert_Some in H as [(-> & <- & _) | (Hne & H)].
  - exists mr. repeat split; auto.
  - exists mr'. repeat split; auto.
Qed.

Lemma well_formed_init : well_formed init.
Proof.
  repeat split; cbn; try (intros; discriminate). constructor.
Qed.

Lemma well_formed_step w e w' : well_formed w -> step w e = Next w' -> well_formed w'.
Proof.
  intros (Hlt & Hinj & Hlive & Hone) Hstep. unfold well_formed.
  destruct (devices_step _ _ _ Hstep) as [E | E | p E | r mr Href Hr Hp E | r mr Hr Hp E];
    unfold devices in E; injection E as Ers Ess _; rewrite Ers, Ess; clear Ers Ess.
  - auto.
  - repeat split; auto.
    + intros r mr Hr. rewrite length_app. specialize (Hlt r mr Hr). simpl. lia.
    + intros r mr Hr Hp. rewrite lookup_app_l by eauto. eauto.
    + apply Forall_app. split; [exact Hone|]. repeat constructor.
  - repeat split.
    + intros r mr Hr. rewrite length_app. simpl.
      apply lookup_snoc_Some in Hr as [[_ Hr] | [_ <-]]; [specialize (Hlt r mr Hr)|simpl]; lia.
    + intros r1 r2 mr1 mr2 H1 H2 Hs.
      apply lookup_snoc_Some in H1 as [[_ H1] | [-> <-]];
        apply lookup_snoc_Some in H2 as [[_ H2] | [-> <-]]; simpl in Hs.
      * eauto.
      * specialize (Hlt _ _ H1). lia.
      * specialize (Hlt _ _ H2). lia.
      * reflexivity.
    + intros r mr Hr Hp.
      apply lookup_snoc_Some in Hr as [[_ Hr] | [_ <-]].
      * rewrite lookup_app_l by eauto. eauto.
      * simpl. apply lookup_snoc.
    + apply Forall_app. split; [exact Hone|]. repeat constructor.
  - repeat split.
    + intros r' mr' H. rewrite length_alter.
      destruct (lookup_rephase _ _ _ _ _ _ Hr H) as (mr0 & H0 & -> & _). eauto.
    + intros r1 r2 mr1 mr2 H1 H2 Hs.
      destruct (lookup_rephase _ _ _ _ _ _ Hr H1) as (m1 & G1 & E1 & _).
      destruct (lookup_rephase _ _ _ _ _ _ Hr H2) as (m2 & G2 & E2 & _).
      apply (Hinj r1 r2 m1 m2 G1 G2). congruence.
    + intros r' mr' H Hp'.
      destruct (lookup_rephase _ _ _ _ _ _ Hr H) as (mr0 & H0 & Es & [[_ Hq] | [Hne ->]]);
        [congruence|].
      rewrite list_lookup_alter_ne; [eauto|].
      intros Heq. apply Hne. symmetry in Heq. exact (Hinj _ _ _ _ H0 Hr Heq).
    + apply Forall_alter; [exact Hone|].
      intros k Hk _. rewrite (Hlive r mr Hr Hp) in Hk. injection Hk as <-. lia.
  - repeat split; auto.
    + intros r' mr' H.
      destruct (lookup_rephase _ _ _ _ _ _ Hr H) as (mr0 & H0 & -> & _). eauto.
    + intros r1 r2 mr1 mr2 H1 H2 Hs.
      destruct (lookup_rephase _ _ _ _ _ _ Hr H1) as (m1 & G1 & E1 & _).
      destruct (lookup_rephase _ _ _ _ _ _ Hr H2) as (m2 & G2 & E2 & _).
      apply (Hinj r1 r2 m1 m2 G1 G2). congruence.
    + intros r' mr' H Hp'.
      destruct (lookup_rephase _ _ _ _ _ _ Hr H) as (mr0 & H0 & Es & [[_ Hq] | [Hne ->]]);
        [congruence|]. eauto.
Qed.

Lemma well_formed_run trace w w' : well_formed w -> run w trace = Next w' -> well_formed w'.
Proof. apply (run_invariant well_formed). intros; eapply well_formed_step; eauto. Qed.

Lemma leaked_step k w e w' : leaked k w -> step w e = Next w' -> leaked k w'.
Proof.
  intros [Hk Hfree] Hstep. unfold leaked.
  pose proof (lookup_lt_Some _ _ _ Hk) as Hlt.
  destruct (devices_step _ _ _ Hstep) as [E | E | p E | r mr Href Hr Hp E | r mr Hr Hp E];
    unfold devices in E; injection E as Ers Ess _; rewrite Ers, Ess; clear Ers Ess.
  - auto.
  - split; [|exact Hfree]. rewrite lookup_app_l by exact Hlt. exact Hk.
  - split; [rewrite lookup_app_l by exact Hlt; exact Hk|].
    intros r mr Hr. apply lookup_snoc_Some in Hr as [[_ Hr] | [_ <-]]; [eauto|simpl; lia].
  - split.
    + rewrite list_lookup_alter_ne; [exact Hk|]. exact (Hfree r mr Hr).
    + intros r' mr' H.
      destruct (lookup_rephase _ _ _ _ _ _ Hr H) as (mr0 & H0 & -> & _). eauto.
  - split; [exact Hk|].
    intros r' mr' H.
    destruct (lookup_rephase _ _ _ _ _ _ Hr H) as (mr0 & H0 & -> & _). eauto.
Qed.

Lemma orphaned_step r0 w e w' : orphaned r0 w -> step w e = Next w' -> orphaned r0 w'.
Proof.
  intros [(m0 & H0 & Hp0) Href0] Hstep. unfold orphaned.
  pose proof (lookup_lt_Some _ _ _ H0) as Hlt.
  destruct (devices_step _ _ _ Hstep) as [E | E | p E | r mr Href Hr Hp E | r mr Hr Hp E];
    unfold devices in E; injection E as Ers Ess Eref; rewrite Ers, Eref; clear Ers Ess Eref.
  - eauto.
  - eauto.
  - split.
    + exists m0. rewrite lookup_app_l by exact Hlt. auto.
    + intros r [= <-]. exact Hlt.
  - split; [|exact Href0].
    exists m0. split; [|exact Hp0]. rewrite list_lookup_insert_ne; [exact H0|].
    specialize (Href0 r Href). lia.
  - split; [|exact Href0].
    exists m0. split; [|exact Hp0]. rewrite list_lookup_insert_ne; [exact H0|].
    intros ->. congruence.
Qed.

(** With no stream stopped twice and one not stopped at all, the tracks
    were stopped fewer times than streams were acquired. *)
Lemma live_stream_unbalanced (ss : list nat) (k : nat) :
  Forall (fun n => n <= 1) ss -> ss !! k = Some 0 -> sum_list ss < length ss.
Proof.
  intros Hone. revert k. induction Hone as [|n ss Hn Hone IH]; intros k Hk.
  - discriminate.
  - assert (sum_list ss <= length ss) as Hle.
    { clear -Hone. induction Hone; simpl; lia. }
    destruct k as [|k]; simpl in *.
    + injection Hk as ->. lia.
    + specialize (IH k Hk). lia.
Qed.

Lemma releases_bounded w : reachable w -> release_count w <= acquire_count w.
Proof.
  intros [trace H]. destruct (well_formed_run _ _ _ well_formed_init H) as (_ & _ & _ & Hone).
  unfold release_count, acquire_count. induction Hone; simpl; lia.
Qed.

(** C2, on the code.  Two inputs after which a stream stays acquired for
    good.  Record clicked twice before the permission prompt is answered:
    the second recorder replaces the first in [mediaRecorderRef], and Stop
    reaches only the second.  A recorder that cannot be constructed on the
    granted stream: the catch of lines 49-52 stops no track.  However the
    session goes on from either, the tracks have been stopped fewer times
    than streams were acquired, and the first stream is still live. *)
Theorem leak_is_permanent (trace : list Event) (w : World) :
  run (after double_start) trace = Next w \/ run (after setup_fails) trace = Next w ->
  streams w !! 0 = Some 0 /\ release_count w < acquire_count w.
Proof.
  intros H.
  assert (well_formed w) as Hwf.
  { destruct H as [H | H]; refine (well_formed_run _ _ _ _ H);
      [apply (well_formed_run double_start init) | apply (well_formed_run setup_fails init)];
      first [apply well_formed_init | vm_compute; reflexivity]. }
  assert (streams w !! 0 = Some 0) as Hlive.
  { destruct H as [H | H].
    - assert (orphaned 0 w /\ (forall mr, recorders w !! 0 = Some mr -> stream mr = 0))
        as [[(m0 & H0 & Hp0) _] Hs].
      { refine (run_invariant
                  (fun w => orphaned 0 w /\
                            forall mr, recorders w !! 0 = Some mr -> stream mr = 0)
                  _ trace _ _ _ H).
        - intros w1 e w2 [Ho Hs] Hstep. split; [eapply orphaned_step; eauto|].
          intros mr Hmr. destruct Ho as [(m0 & H0 & _) _].
          pose proof (lookup_lt_Some _ _ _ H0) as Hlt.
          destruct (devices_step _ _ _ Hstep) as [E | E | p E | r m Href Hr Hp E | r m Hr Hp E];
            unfold devices in E; injection E as Ers _ _; rewrite Ers in Hmr.
          + eauto.
          + eauto.
          + rewrite lookup_app_l in Hmr by exact Hlt. eauto.
          + destruct (lookup_rephase _ _ _ _ _ _ Hr Hmr) as (mr0 & G & -> & _). eauto.
          + destruct (lookup_rephase _ _ _ _ _ _ Hr Hmr) as (mr0 & G & -> & _). eauto.
        - split.
          + split; [eexists; split; vm_compute; reflexivity|].
            vm_compute. intros r [= <-]. lia.
          + vm_compute. intros mr [= <-]. reflexivity. }
      destruct Hwf as (_ & _ & Hrec & _).
      pose proof (Hrec 0 m0 H0 Hp0) as G. rewrite (Hs m0 H0) in G. exact G.
    - refine (proj1 (run_invariant (leaked 0) _ trace _ _ _ H)).
      + intros; eapply leaked_step; eauto.
      + split; [vm_compute; reflexivity|]. vm_compute. intros [|r] mr; discriminate. }
  split; [exact Hlive|].
  destruct Hwf as (_ & _ & _ & Hone). exact (live_stream_unbalanced _ 0 Hone Hlive).
Qed.

Lemma leak_is_permanent_witness :
  (streams (after double_start) !! 0 = Some 0 /\
   release_count (after double_start) < acquire_count (after double_start)) /\
  (streams (after (setup_fails ++ record_once "hi")) !! 0 = Some 0 /\
   release_count (after (setup_fails ++ record_once "hi"))
   < acquire_count (after (setup_fails ++ record_once "hi"))).
Proof.
  split.
  - apply (leak_is_permanent [] (after double_start)). left. reflexivity.
  - apply (leak_is_permanent (record_once "hi") (after (setup_fails ++ record_once "hi"))).
    right. vm_compute. reflexivity.
Defined.

(** The counts at the two inputs, and on the path the component was
    written for. *)
Example leak_counts :
  run init double_start = Next (after double_start) /\
  acquire_count (after double_start) = 2 /\
  release_count (after double_start) = 1 /\
  mediaRecorderRef (after double_start) = Some 1 /\
  recorders (after double_start) !! 0 = Some {| stream := 0; phase := Recording |} /\
  run init setup_fails = Next (after setup_fails) /\
  status (after setup_fails) = "mic_error" /\
  acquire_count (after setup_fails) = 1 /\
  release_count (after setup_fails) = 0 /\
  stop_disabled (after setup_fails) = true /\
  acquire_count (after (record_once "hi")) = 1 /\
  release_count (after (record_once "hi")) = 1.
Proof. repeat apply conj; vm_compute; reflexivity. Qed.

(** * Further properties of the component *)

(** ** The status *)

(** X1.  The status is always one of the fourteen strings of the source:
    no transition writes anything else into it. *)
Theorem status_is_one_of_fourteen (w : World) :
  reachable w -> In (status w) statuses.
Proof.
  intros [trace H].
  refine (run_invariant (fun w => In (status w) statuses) _ trace init w _ H);
    [|pick_status].
  clear. intros w e w' Inv Hstep.
  destruct e; step_inv Hstep; try exact Inv; try pick_status.
  - unfold save_click. break_goal_match; [exact Inv | pick_status].
  - unfold summarize_click. break_goal_match; [exact Inv | pick_status].
  - destruct setup; pick_status.
  - unfold ondataavailable. repeat break_goal_match; exact Inv.
  - unfold upload_resume. repeat break_goal_match; pick_status.
  - unfold save_resume in Hstep. repeat break_match_in Hstep; try discriminate Hstep;
      injection Hstep as <-; pick_status.
  - unfold summarize_resume. repeat break_goal_match; pick_status.
Qed.

Lemma status_is_one_of_fourteen_witness : In (status (after summarized)) statuses.
Proof.
  apply (status_is_one_of_fourteen (after summarized)).
  exists summarized. vm_compute. reflexivity.
Defined.

(** ** Stopping *)

(** X2.  [stopRecording] run twice in a row does what it does once: the
    second run finds the recorder inactive (line 56) and stops no track
    again. *)
Theorem stopRecording_twice (w : World) :
  stopRecording (stopRecording w) = stopRecording w /\
  release_count (stopRecording (stopRecording w)) = release_count (stopRecording w).
Proof.
  assert (stopRecording (stopRecording w) = stopRecording w) as E.
  { unfold stopRecording at 2 3.
    destruct (mediaRecorderRef w) as [r|] eqn:Er;
      [destruct (recorders w !! r) as [mr|] eqn:Emr;
       [destruct (is_recording (phase mr)) eqn:Ep|]|].
    - unfold stopRecording. cbn. rewrite Er.
      rewrite list_lookup_insert_eq by (eapply lookup_lt_Some; exact Emr). cbn.
      reflexivity.
    - unfold stopRecording. cbn. rewrite Er, Emr, Ep. reflexivity.
    - unfold stopRecording. cbn. rewrite Er, Emr. reflexivity.
    - unfold stopRecording. cbn. rewrite Er. reflexivity. }
  split; [exact E | rewrite E; reflexivity].
Qed.

(** X3.  In every reachable state, while the recorder the component holds
    is recording, the Stop button is enabled: the flag is cleared only by
    [stopRecording], which stops that recorder. *)
Theorem held_recorder_stoppable (w : World) :
  reachable w -> held_recorder_can_be_stopped w.
Proof.
  intros [trace H].
  refine (run_invariant held_recorder_can_be_stopped _ trace init w _ H);
    [|intros r mr; discriminate].
  clear. unfold held_recorder_can_be_stopped, stop_disabled.
  intros w e w' Inv Hstep r mr.
  destruct e; step_inv Hstep; try (exact (Inv r mr)).
  - (* ClickStop *)
    unfold stopRecording.
    destruct (mediaRecorderRef w) as [r0|] eqn:Er; [|cbn; rewrite Er; discriminate].
    destruct (recorders w !! r0) as [m0|] eqn:Em; [|cbn; rewrite Er; intros [= <-]; congruence].
    destruct (is_recording (phase m0)) eqn:Ep; cbn; rewrite Er; intros [= <-].
    + rewrite list_lookup_insert_eq by (eapply lookup_lt_Some; exact Em).
      intros [= <-]. discriminate.
    + rewrite Em. intros [= <-] Hp. rewrite Hp in Ep. discriminate.
  - unfold save_click. break_goal_match; exact (Inv r mr).
  - unfold summarize_click. break_goal_match; exact (Inv r mr).
  - (* MicGranted *)
    destruct setup; cbn; try (exact (Inv r mr)); try reflexivity.
    intros [= <-]. rewrite lookup_snoc. intros [= <-]. discriminate.
  - unfold ondataavailable. repeat break_goal_match; exact (Inv r mr).
  - (* RecorderStop *)
    cbn. intros Href Hr Hp.
    apply list_lookup_insert_Some in Hr as [(<- & <- & _) | (Hne & Hr)]; [discriminate|].
    exact (Inv r mr Href Hr Hp).
  - unfold upload_resume. repeat break_goal_match; exact (Inv r mr).
  - unfold save_resume in Hstep. repeat break_match_in Hstep; try discriminate Hstep;
      injection Hstep as <-; exact (Inv r mr).
  - unfold summarize_resume. repeat break_goal_match; exact (Inv r mr).
Qed.

Lemma held_recorder_stoppable_witness :
  held_recorder_can_be_stopped (after save_lands_while_recording).
Proof.
  apply (held_recorder_stoppable (after save_lands_while_recording)).
  exists save_lands_while_recording. vm_compute. reflexivity.
Defined.

(** ** Recorders and streams *)

Lemma recorder_step_forward w e w' r mr :
  step w e = Next w' -> recorders w !! r = Some mr ->
  exists mr', recorders w' !! r = Some mr' /\ stream mr' = stream mr /\
              rank (phase mr) <= rank (phase mr').
Proof.
  intros Hstep Hmr. pose proof (lookup_lt_Some _ _ _ Hmr) as Hlt.
  destruct (devices_step _ _ _ Hstep) as [E | E | p E | r0 m0 Href Hr Hp E | r0 m0 Hr Hp E];
    unfold devices in E; injection E as Ers _ _; rewrite Ers; clear Ers.
  - eauto.
  - eauto.
  - exists mr. rewrite lookup_app_l by exact Hlt. auto.
  - destruct (decide (r0 = r)) as [-> | Hne].
    + rewrite list_lookup_insert_eq by exact Hlt. eexists. split; [reflexivity|].
      assert (m0 = mr) as -> by congruence. rewrite Hp. simpl. auto.
    + rewrite list_lookup_insert_ne by exact Hne. eauto.
  - destruct (decide (r0 = r)) as [-> | Hne].
    + rewrite list_lookup_insert_eq by exact Hlt. eexists. split; [reflexivity|].
      assert (m0 = mr) as -> by congruence. rewrite Hp. simpl. auto.
    + rewrite list_lookup_insert_ne by exact Hne. eauto.
Qed.

Lemma inactive_stays_inactive trace w w' r mr :
  run w trace = Next w' -> recorders w !! r = Some mr -> phase mr = Inactive ->
  exists mr', recorders w' !! r = Some mr' /\ phase mr' = Inactive.
Proof.
  revert w mr. induction trace as [|e rest IH]; simpl; intros w mr Hrun Hmr Hp.
  - injection Hrun as <-. eauto.
  - destruct (step w e) as [w1| |] eqn:E; try discriminate.
    destruct (recorder_step_forward _ _ _ _ _ E Hmr) as (m1 & H1 & _ & Hr1).
    apply (IH w1 m1 Hrun H1). rewrite Hp in Hr1.
    destruct (phase m1); simpl in Hr1; [reflexivity | lia | lia].
Qed.

(** X4.  Along every run a recorder stays where it is in the list, keeps
    its stream and only moves forward, from recording to stopping to
    inactive: the component never starts a recorder a second time. *)
Theorem recorder_never_restarts (trace : list Event) (w w' : World) (r : nat) (mr : MediaRecorder) :
  run w trace = Next w' ->
  recorders w !! r = Some mr ->
  exists mr', recorders w' !! r = Some mr' /\ stream mr' = stream mr /\
              rank (phase mr) <= rank (phase mr').
Proof.
  revert w mr. induction trace as [|e rest IH]; simpl; intros w mr Hrun Hmr.
  - injection Hrun as <-. exists mr. repeat split; auto.
  - destruct (step w e) as [w1| |] eqn:E; try discriminate.
    destruct (recorder_step_forward _ _ _ _ _ E Hmr) as (m1 & H1 & Hs1 & Hr1).
    destruct (IH w1 m1 Hrun H1) as (m2 & H2 & Hs2 & Hr2).
    exists m2. repeat split; [exact H2 | congruence | lia].
Qed.

Lemma recorder_never_restarts_witness :
  exists mr',
    recorders (after (record_once "hi" ++ [ClickRecord; MicGranted SetupOk])) !! 0 = Some mr' /\
    stream mr' = stream {| stream := 0; phase := Stopping |} /\
    rank (phase {| stream := 0; phase := Stopping |}) <= rank (phase mr').
Proof.
  apply (recorder_never_restarts
           [RecorderData 0 (Some (chunk 5)); RecorderStop 0;
            UploadSettled (Responded true (JObj [("transcription", JStr "hi")]));
            ClickRecord; MicGranted SetupOk]
           (after [ClickRecord; MicGranted SetupOk; ClickStop])).
  - vm_compute. reflexivity.
  - reflexivity.
Defined.

(** X5.  Once the stop event of a recorder has been handled, and with it
    the upload of lines 26-36 sent, it is never handled again, whatever
    happens next: a recording is uploaded at most once. *)
Theorem stop_event_handled_once (trace : list Event) (w0 w w' : World) (r : nat) :
  step w0 (RecorderStop r) = Next w ->
  run w trace = Next w' ->
  step w' (RecorderStop r) = NotPending.
Proof.
  intros Hstop Hrun.
  assert (exists mr, recorders w !! r = Some mr /\ phase mr = Inactive) as (mr & Hmr & Hp).
  { unfold step in Hstop. destruct (recorders w0 !! r) as [m0|] eqn:E0; [|discriminate].
    destruct (is_stopping (phase m0)); [|discriminate]. injection Hstop as <-. cbn.
    rewrite list_lookup_insert_eq by (eapply lookup_lt_Some; exact E0).
    eexists. split; reflexivity. }
  destruct (inactive_stays_inactive _ _ _ _ _ Hrun Hmr Hp) as (m' & H' & Hp').
  unfold step. rewrite H', Hp'. reflexivity.
Qed.

Lemma stop_event_handled_once_witness :
  step (after (record_once "hi" ++ [ClickRecord; MicGranted SetupOk])) (RecorderStop 0)
  = NotPending.
Proof.
  apply (stop_event_handled_once
           [UploadSettled (Responded true (JObj [("transcription", JStr "hi")]));
            ClickRecord; MicGranted SetupOk]
           (after [ClickRecord; MicGranted SetupOk; ClickStop; RecorderData 0 (Some (chunk 5))])
           (after [ClickRecord; MicGranted SetupOk; ClickStop; RecorderData 0 (Some (chunk 5));
                   RecorderStop 0])).
  - vm_compute. reflexivity.
  - vm_compute. reflexivity.
Defined.

(** X6.  In every reachable state no stream has had its tracks stopped
    twice, the stream of a recorder that is still recording is live, and
    the tracks have been stopped at most as often as streams were
    acquired. *)
Theorem streams_stopped_at_most_once (w : World) :
  reachable w ->
  Forall (fun k => k <= 1) (streams w) /\
  (forall r mr, recorders w !! r = Some mr -> phase mr = Recording ->
                streams w !! stream mr = Some 0) /\
  release_count w <= acquire_count w.
Proof.
  intros [trace H].
  destruct (well_formed_run _ _ _ well_formed_init H) as (_ & _ & Hlive & Hone).
  repeat split; [exact Hone | exact Hlive |].
  unfold release_count, acquire_count. clear -Hone. induction Hone; simpl; lia.
Qed.

Lemma streams_stopped_at_most_once_witness :
  Forall (fun k => k <= 1) (streams (after double_start)) /\
  (forall r mr, recorders (after double_start) !! r = Some mr -> phase mr = Recording ->
                streams (after double_start) !! stream mr = Some 0) /\
  release_count (after double_start) <= acquire_count (after double_start).
Proof.
  apply (streams_stopped_at_most_once (after double_start)).
  exists double_start. vm_compute. reflexivity.
Defined.

(** ** One recording, start to finish *)

Lemma alter_snoc {A} (f : A -> A) (l : list A) (x : A) :
  alter f (length l) (l ++ [x])%list = (l ++ [f x])%list.
Proof. induction l as [|a l IH]; simpl; [reflexivity|]. f_equal. exact IH. Qed.

Lemma nonempty_text (text : string) : text <> "" -> String.eqb text "" = false.
Proof. intros H. apply String.eqb_neq. exact H. Qed.

(** X7.  From any state in which the Record button is enabled, the path
    the component is written for (Record, microphone granted, Stop, the
    recorder's data and stop events, a transcription with a non-empty text)
    ends with that text as the transcript and the status [done]; exactly
    one stream has been acquired and its tracks stopped once, the recording
    flag is clear again, and the summary and the action items are as
    before. *)
Theorem one_recording (w : World) (chunks : list Blob) (ok : bool) (text : string) :
  recording w = false ->
  text <> "" ->
  exists w',
    run w ([ClickRecord; MicGranted SetupOk; ClickStop]
           ++ deliver (length (recorders w)) chunks
           ++ [RecorderStop (length (recorders w));
               UploadSettled (Responded ok (JObj [("transcription", JStr text)]))])
    = Next w' /\
    transcript w' = JStr text /\
    status w' = "done" /\
    recording w' = false /\
    streams w' = (streams w ++ [1])%list /\
    network w' = (network w ++ [upload_request (new_Blob (List.filter nonempty chunks) "audio/webm")])%list /\
    summary w' = summary w /\
    actionItems w' = actionItems w.
Proof.
  intros Hrec Htext. destruct w. simpl in Hrec. subst recording0.
  cbn [app run step record_disabled recording micRequests recorders uploads saves summaries
       startRecording setTranscript setStatus getUserMedia set_pending].
  unfold startRecording_resume. cbn. rewrite insert_snoc.
  unfold stopRecording. cbn. rewrite lookup_snoc. cbn. rewrite insert_snoc, alter_snoc.
  rewrite run_app. erewrite run_deliver; [|cbn; apply lookup_snoc|reflexivity].
  cbn. rewrite lookup_snoc. cbn.
  unfold upload_resume, get. cbn. rewrite (nonempty_text _ Htext). cbn.
  eexists. split; [reflexivity|]. cbn. repeat apply conj; reflexivity.
Qed.

Lemma one_recording_witness :
  exists w',
    run (after setup_fails)
        ([ClickRecord; MicGranted SetupOk; ClickStop]
         ++ deliver 0 [chunk 5; chunk 0; chunk 7]
         ++ [RecorderStop 0;
             UploadSettled (Responded true (JObj [("transcription", JStr "hi")]))])
    = Next w' /\
    transcript w' = JStr "hi" /\
    status w' = "done" /\
    recording w' = false /\
    streams w' = (streams (after setup_fails) ++ [1])%list /\
    network w' = (network (after setup_fails)
                  ++ [upload_request (new_Blob (List.filter nonempty [chunk 5; chunk 0; chunk 7])
                                        "audio/webm")])%list /\
    summary w' = summary (after setup_fails) /\
    actionItems w' = actionItems (after setup_fails).
Proof.
  apply (one_recording (after setup_fails) [chunk 5; chunk 0; chunk 7] true "hi").
  - reflexivity.
  - discriminate.
Defined.

(** ** What can be saved *)

Lemma string_of_uint_nonempty d : d <> Decimal.Nil -> String.eqb (NilEmpty.string_of_uint d) "" = false.
Proof. destruct d; simpl; intros H; [contradiction | reflexivity ..]. Qed.

Lemma JSON_stringify_nonempty (j : json) : String.eqb (JSON_stringify j) "" = false.
Proof.
  destruct j as [| [] | [|p|p] | s | items | props]; try reflexivity.
  apply string_of_uint_nonempty, DecimalPos.Unsigned.to_uint_nonnil.
Qed.

(** X8.  When the transcription request settles and leaves a string in
    the transcript (a rejection, the body [null], or a body whose
    [transcription] is missing, falsy or a string), that string is not
    empty: the Save and Summarize buttons are enabled afterwards, on an
    error message as much as on a transcription. *)
Theorem upload_leaves_something_to_save (w : World) (n : nat) (o : Settled) :
  uploads w = S n ->
  (forall ok j v, o = Responded ok j -> get (Some j) "transcription" = Normal (Some v) ->
                  truthy v = true -> exists s, v = JStr s) ->
  exists w' text,
    step w (UploadSettled o) = Next w' /\
    transcript w' = JStr text /\
    text <> "" /\
    (status w' = "done" \/ status w' = "error") /\
    save_disabled w' = false /\
    summarize_disabled w' = false.
Proof.
  intros Hup Hstr. unfold step. rewrite Hup.
  assert (forall w0 st text,
            (st = "done" \/ st = "error") -> String.eqb text "" = false ->
            exists w' text',
              Next (setStatus st (setTranscript (JStr text) w0)) = Next w' /\
              transcript w' = JStr text' /\ text' <> "" /\
              (status w' = "done" \/ status w' = "error") /\
              save_disabled w' = false /\ summarize_disabled w' = false) as Hput.
  { intros w0 st text Hst Ht. exists (setStatus st (setTranscript (JStr text) w0)), text.
    split; [reflexivity|]. split; [reflexivity|].
    split; [apply String.eqb_neq; exact Ht|]. split; [exact Hst|].
    unfold save_disabled, summarize_disabled. cbn. rewrite Ht.
    destruct Hst as [-> | ->]; split; reflexivity. }
  unfold upload_resume, upload_catch.
  destruct o as [m | ok j]; [|destruct (get (Some j) "transcription") as [v|m] eqn:Eget].
  - apply Hput; [right; reflexivity | reflexivity].
  - destruct v as [v|]; [destruct (truthy v) eqn:Ev|].
    + destruct (Hstr ok j v eq_refl Eget Ev) as [s ->].
      unfold or_else. rewrite Ev. apply Hput; [left; reflexivity|].
      simpl in Ev. destruct (String.eqb s ""); [discriminate | reflexivity].
    + unfold or_else. rewrite Ev. apply Hput; [left; reflexivity|].
      apply JSON_stringify_nonempty.
    + apply Hput; [left; reflexivity | apply JSON_stringify_nonempty].
  - apply Hput; [right; reflexivity | reflexivity].
Qed.

Lemma upload_leaves_something_to_save_witness :
  exists w' text,
    step (after [ClickRecord; MicGranted SetupOk; ClickStop; RecorderStop 0])
         (UploadSettled (Rejected "Failed to fetch")) = Next w' /\
    transcript w' = JStr text /\
    text <> "" /\
    (status w' = "done" \/ status w' = "error") /\
    save_disabled w' = false /\
    summarize_disabled w' = false.
Proof.
  apply (upload_leaves_something_to_save
           (after [ClickRecord; MicGranted SetupOk; ClickStop; RecorderStop 0]) 0).
  - reflexivity.
  - intros ok j v E. discriminate E.
Defined.

(** X9.  After the microphone has been refused, a click on Save sends
    the error message as the content of [transcript.txt]: the message sits
    in the transcript cell, and the button only asks that the cell be
    non-empty. *)
Theorem mic_error_is_saved_as_transcript (w : World) (n : nat) (message : string) :
  micRequests w = S n ->
  exists w',
    run w [MicDenied message; ClickSave] = Next w' /\
    network w' = (network w ++
                  [save_request
                     (JStr ("Microphone access denied or not available: " +:+ message))])%list /\
    saves w' = S (saves w) /\
    status w' = "saving".
Proof.
  intros Hm. destruct w. simpl in Hm. subst micRequests0.
  eexists. split; [reflexivity|]. repeat apply conj; reflexivity.
Qed.

Lemma mic_error_is_saved_as_transcript_witness :
  exists w',
    run (after [ClickRecord]) [MicDenied "Permission denied"; ClickSave] = Next w' /\
    network w' = (network (after [ClickRecord]) ++
                  [save_request
                     (JStr ("Microphone access denied or not available: "
                            +:+ "Permission denied"))])%list /\
    saves w' = S (saves (after [ClickRecord])) /\
    status w' = "saving".
Proof.
  apply (mic_error_is_saved_as_transcript (after [ClickRecord]) 0 "Permission denied").
  reflexivity.
Defined.

(** ** Replies of the summarize endpoint *)

(** X10.  A successful summarize reply whose [summary] and [action_items]
    are missing or falsy stores the empty string and the empty list:
    whatever summary and action items were shown before are cleared, the
    status is [summarized] and the transcript is untouched. *)
Theorem summarize_missing_fields (w : World) (n : nat) (j : json) (s a : jsval) :
  summaries w = S n ->
  get (Some j) "summary" = Normal s -> truthy_val s = false ->
  get (Some j) "action_items" = Normal a -> truthy_val a = false ->
  exists w',
    step w (SummarizeSettled (Responded true j)) = Next w' /\
    summary w' = JStr "" /\
    actionItems w' = JArr [] /\
    status w' = "summarized" /\
    transcript w' = transcript w.
Proof.
  intros Hn Hs Fs Ha Fa. unfold step. rewrite Hn. eexists. split; [reflexivity|].
  unfold summarize_resume. rewrite Hs, Ha.
  assert (forall v d, truthy_val v = false -> or_else v d = d) as Hor.
  { intros [x|] d F; simpl in *; [rewrite F|]; reflexivity. }
  cbn. rewrite (Hor s), (Hor a) by assumption. repeat apply conj; reflexivity.
Qed.

Lemma summarize_missing_fields_witness :
  exists w',
    step (after (record_once "hi" ++ [ClickSummarize]))
         (SummarizeSettled (Responded true (JObj [("summary", JNull)]))) = Next w' /\
    summary w' = JStr "" /\
    actionItems w' = JArr [] /\
    status w' = "summarized" /\
    transcript w' = transcript (after (record_once "hi" ++ [ClickSummarize])).
Proof.
  apply (summarize_missing_fields (after (record_once "hi" ++ [ClickSummarize])) 0
           (JObj [("summary", JNull)]) (Some JNull) None); reflexivity.
Defined.

(** X11.  A summarize request that fails, by rejection or with a response
    that is not [ok], replaces the summary by an error text and sets the
    status [summary_error], and leaves the action items as they were: those
    of an earlier summary stay next to the error. *)
Theorem summarize_failure_keeps_action_items (w : World) (n : nat) (message : string) (j : json) :
  summaries w = S n ->
  (exists w',
     step w (SummarizeSettled (Rejected message)) = Next w' /\
     summary w' = JStr ("Error summarizing: " +:+ message) /\
     actionItems w' = actionItems w /\ status w' = "summary_error" /\
     transcript w' = transcript w) /\
  (exists w',
     step w (SummarizeSettled (Responded false j)) = Next w' /\
     summary w' = JStr ("Error summarizing: " +:+ JSON_stringify j) /\
     actionItems w' = actionItems w /\ status w' = "summary_error" /\
     transcript w' = transcript w).
Proof.
  intros Hn. unfold step. rewrite Hn.
  split; eexists; (split; [reflexivity|]); repeat apply conj; reflexivity.
Qed.

Lemma summarize_failure_keeps_action_items_witness :
  (exists w',
     step (after (summarized ++ [ClickSummarize])) (SummarizeSettled (Rejected "Failed to fetch"))
     = Next w' /\
     summary w' = JStr ("Error summarizing: " +:+ "Failed to fetch") /\
     actionItems w' = actionItems (after (summarized ++ [ClickSummarize])) /\
     status w' = "summary_error" /\
     transcript w' = transcript (after (summarized ++ [ClickSummarize]))) /\
  (exists w',
     step (after (summarized ++ [ClickSummarize]))
          (SummarizeSettled (Responded false (JObj [("detail", JStr "busy")]))) = Next w' /\
     summary w' = JStr ("Error summarizing: " +:+ JSON_stringify (JObj [("detail", JStr "busy")])) /\
     actionItems w' = actionItems (after (summarized ++ [ClickSummarize])) /\
     status w' = "summary_error" /\
     transcript w' = transcript (after (summarized ++ [ClickSummarize]))).
Proof.
  apply (summarize_failure_keeps_action_items (after (summarized ++ [ClickSummarize])) 0).
  reflexivity.
Defined.

(** ** Replies of the save endpoint *)

(** X12.  A successful save reply whose [file] has neither a truthy
    [webViewLink] nor an [id] is reported as saved all the same, and the
    note appended to the transcript reads [[Saved to Drive] undefined]. *)
Theorem save_reply_without_link_or_id (w : World) (n : nat) (j f : json) (link : jsval) :
  saves w = S n ->
  get (Some j) "file" = Normal (Some f) ->
  get (Some f) "webViewLink" = Normal link -> truthy_val link = false ->
  get (Some f) "id" = Normal None ->
  exists w',
    step w (SaveSettled (Responded true j)) = Next w' /\
    transcript w'
    = JStr (js_to_string (transcript w) +:+ nl +:+ nl +:+ "[Saved to Drive] undefined") /\
    status w' = "saved".
Proof.
  intros Hn Hf Hl Fl Hi. unfold step. rewrite Hn. unfold save_resume, saved_reference.
  rewrite Hf, Hl, Fl, Hi. eexists. split; [reflexivity|]. split; reflexivity.
Qed.

Lemma save_reply_without_link_or_id_witness :
  exists w',
    step (after (record_once "hi" ++ [ClickSave]))
         (SaveSettled (Responded true (JObj [("file", JObj [("name", JStr "transcript.txt")])])))
    = Next w' /\
    transcript w'
    = JStr (js_to_string (transcript (after (record_once "hi" ++ [ClickSave])))
            +:+ nl +:+ nl +:+ "[Saved to Drive] undefined") /\
    status w' = "saved".
Proof.
  apply (save_reply_without_link_or_id (after (record_once "hi" ++ [ClickSave])) 0
           (JObj [("file", JObj [("name", JStr "transcript.txt")])])
           (JObj [("name", JStr "transcript.txt")]) None); reflexivity.
Defined.

(** X13.  A successful save reply without a [file] (or with [file: null],
    or the body [null]) makes the updater of line 96 throw.  It runs when
    React renders, outside the [try] of lines 87-104: the catch that would
    set [save_error] does not run, and the transition has no next state. *)
Theorem save_reply_without_file (w : World) (n : nat) (j : json) :
  saves w = S n ->
  j = JNull \/ get (Some j) "file" = Normal None \/ get (Some j) "file" = Normal (Some JNull) ->
  exists message, step w (SaveSettled (Responded true j)) = RenderThrows message.
Proof.
  intros Hn H. unfold step. rewrite Hn. unfold save_resume, saved_reference.
  destruct H as [-> | [H | H]]; [|rewrite H..]; eexists; reflexivity.
Qed.

Lemma save_reply_without_file_witness :
  exists message,
    step (after (record_once "hi" ++ [ClickSave]))
         (SaveSettled (Responded true (JObj [("id", JStr "42")]))) = RenderThrows message.
Proof.
  apply (save_reply_without_file (after (record_once "hi" ++ [ClickSave])) 0).
  - reflexivity.
  - right. left. reflexivity.
Defined.

(** ** Requests *)

Lemma clean_traffic_grows (w w' : World) (r : Request) :
  clean_traffic w -> chunksRef w' = chunksRef w ->
  network w' = (network w ++ [r])%list -> built_by_component r ->
  clean_traffic w'.
Proof.
  intros [Hc Hn] Ec En Hr. split; [rewrite Ec; exact Hc|].
  intros r' Hin. rewrite En in Hin. apply elem_of_app in Hin as [Hin | Hin]; [auto|].
  apply list_elem_of_singleton in Hin. subst r'. exact Hr.
Qed.

Lemma clean_traffic_same (w w' : World) :
  clean_traffic w -> chunksRef w' = chunksRef w -> network w' = network w ->
  clean_traffic w'.
Proof. intros [Hc Hn] Ec En. split; [rewrite Ec | rewrite En]; assumption. Qed.

Lemma clean_traffic_step w e w' : clean_traffic w -> step w e = Next w' -> clean_traffic w'.
Proof.
  intros Inv Hstep.
  destruct e; step_inv Hstep; try exact Inv;
    try (apply (clean_traffic_same _ _ Inv); reflexivity).
  - (* ClickStop *) apply (clean_traffic_same _ _ Inv); unfold stopRecording;
      repeat break_goal_match; reflexivity.
  - (* ClickSave *) unfold save_disabled in Heqb. apply orb_false_elim in Heqb as [Ht _].
    apply negb_false_iff in Ht. unfold save_click. rewrite Ht.
    apply (clean_traffic_grows w _ (save_request (transcript w)) Inv); try reflexivity.
    right; left. eauto.
  - (* ClickSummarize *) unfold summarize_disabled in Heqb. apply orb_false_elim in Heqb as [Ht _].
    apply negb_false_iff in Ht. unfold summarize_click. rewrite Ht.
    apply (clean_traffic_grows w _ (summarize_request (transcript w)) Inv); try reflexivity.
    right; right. eauto.
  - (* MicGranted *) destruct Inv as [Hc Hn].
    destruct setup; (split; [cbn; first [exact Hc | constructor] | exact Hn]).
  - (* RecorderData *) unfold ondataavailable. destruct data as [b|]; [|exact Inv].
    fold (nonempty b). destruct (nonempty b) eqn:Eb; [|exact Inv].
    destruct Inv as [Hc Hn]. split; [|exact Hn]. cbn. apply Forall_app. split; [exact Hc|].
    constructor; [exact Eb | constructor].
  - (* RecorderStop *)
    apply (clean_traffic_grows w _ (upload_request (new_Blob (chunksRef w) "audio/webm")) Inv);
      try reflexivity.
    left. exists (chunksRef w). split; [exact (proj1 Inv) | reflexivity].
  - (* UploadSettled *) apply (clean_traffic_same _ _ Inv);
      unfold upload_resume; repeat break_goal_match; reflexivity.
  - (* SaveSettled *) unfold save_resume in Hstep.
    repeat break_match_in Hstep; try discriminate Hstep; injection Hstep as <-;
      apply (clean_traffic_same _ _ Inv); reflexivity.
  - (* SummarizeSettled *) apply (clean_traffic_same _ _ Inv);
      unfold summarize_resume; repeat break_goal_match; reflexivity.
Qed.

Lemma clean_traffic_reachable w : reachable w -> clean_traffic w.
Proof.
  intros [trace H]. refine (run_invariant clean_traffic _ trace init w _ H).
  - intros; eapply clean_traffic_step; eauto.
  - split; [constructor | intros r Hin; inversion Hin].
Qed.

(** X15.  Every request the component ever sends is a POST to one of its
    three endpoints, and a save or a summarize request never carries an
    empty (falsy) transcript: with nothing in the transcript cell no
    request leaves. *)
Theorem no_request_without_transcript (w : World) (r : Request) :
  reachable w ->
  r ∈ network w ->
  method r = "POST" /\
  ((url r = "http://127.0.0.1:8000/upload-audio" /\ headers r = []) \/
   (exists content,
      truthy content = true /\
      url r = "http://127.0.0.1:8000/save-transcript" /\
      headers r = [("Content-Type", "application/json")] /\
      body r = Text (JSON_stringify
                       (JObj [("filename", JStr "transcript.txt"); ("content", content)]))) \/
   (exists text,
      truthy text = true /\
      url r = "http://127.0.0.1:8000/summarize" /\
      headers r = [("Content-Type", "application/json")] /\
      body r = Text (JSON_stringify (JObj [("text", text); ("num_sentences", JNum 3)])))).
Proof.
  intros Hreach Hin.
  destruct (proj2 (clean_traffic_reachable w Hreach) r Hin)
    as [(chunks & _ & ->) | [(content & Ht & ->) | (text & Ht & ->)]].
  - split; [reflexivity|]. left. split; reflexivity.
  - split; [reflexivity|]. right; left. exists content. repeat apply conj; auto.
  - split; [reflexivity|]. right; right. exists text. repeat apply conj; auto.
Qed.

Lemma no_request_without_transcript_witness :
  method (save_request (JStr "hi")) = "POST" /\
  ((url (save_request (JStr "hi")) = "http://127.0.0.1:8000/upload-audio" /\
    headers (save_request (JStr "hi")) = []) \/
   (exists content,
      truthy content = true /\
      url (save_request (JStr "hi")) = "http://127.0.0.1:8000/save-transcript" /\
      headers (save_request (JStr "hi")) = [("Content-Type", "application/json")] /\
      body (save_request (JStr "hi"))
      = Text (JSON_stringify
                (JObj [("filename", JStr "transcript.txt"); ("content", content)]))) \/
   (exists text,
      truthy text = true /\
      url (save_request (JStr "hi")) = "http://127.0.0.1:8000/summarize" /\
      headers (save_request (JStr "hi")) = [("Content-Type", "application/json")] /\
      body (save_request (JStr "hi"))
      = Text (JSON_stringify (JObj [("text", text); ("num_sentences", JNum 3)])))).
Proof.
  apply (no_request_without_transcript (after save_then_summarize) (save_request (JStr "hi"))).
  - exists save_then_summarize. vm_compute. reflexivity.
  - vm_compute. apply list_elem_of_further, list_elem_of_here.
Defined.

(** X16.  Every upload is a multipart POST with the single field [file],
    named [meeting.webm], typed [audio/webm], and made of the buffered
    chunks, none of which is empty; the buffer itself never holds an empty
    chunk. *)
Theorem uploads_are_webm_of_nonempty_chunks (w : World) (r : Request) :
  reachable w ->
  r ∈ network w ->
  url r = "http://127.0.0.1:8000/upload-audio" ->
  Forall (fun c => (0 < size c)%nat) (chunksRef w) /\
  exists chunks,
    Forall (fun c => (0 < size c)%nat) chunks /\
    body r = FormData "file"
               {| blob_type := "audio/webm"; blob_bytes := concat (map blob_bytes chunks) |}
               "meeting.webm".
Proof.
  intros Hreach Hin Hurl.
  assert (forall cs, Forall (fun c => nonempty c = true) cs ->
                     Forall (fun c => (0 < size c)%nat) cs) as Hpos.
  { intros cs H. eapply Forall_impl; [exact H|]. intros c Hc. unfold nonempty in Hc.
    apply Nat.ltb_lt in Hc. exact Hc. }
  destruct (clean_traffic_reachable w Hreach) as [Hc Hn].
  split; [apply Hpos, Hc|].
  destruct (Hn r Hin) as [(chunks & Hcs & ->) | [(content & _ & ->) | (text & _ & ->)]];
    try discriminate Hurl.
  exists chunks. split; [apply Hpos, Hcs | reflexivity].
Qed.

Lemma uploads_are_webm_of_nonempty_chunks_witness :
  Forall (fun c => (0 < size c)%nat) (chunksRef (after (record_once "hi"))) /\
  exists chunks,
    Forall (fun c => (0 < size c)%nat) chunks /\
    body (upload_request (new_Blob [chunk 5] "audio/webm"))
    = FormData "file"
        {| blob_type := "audio/webm"; blob_bytes := concat (map blob_bytes chunks) |}
        "meeting.webm".
Proof.
  apply (uploads_are_webm_of_nonempty_chunks (after (record_once "hi"))
           (upload_request (new_Blob [chunk 5] "audio/webm"))).
  - exists (record_once "hi"). vm_compute. reflexivity.
  - vm_compute. apply list_elem_of_here.
  - reflexivity.
Defined.

(** ** Results that arrive late *)



(** ** The transcript cell *)

Lemma append_nonempty (a b : string) (c : ascii) :
  String.eqb (a +:+ String c b) "" = false.
Proof. destruct a; reflexivity. Qed.

Lemma js_append_truthy (prev : json) (text : string) :
  truthy (js_append prev (nl +:+ text)) = true.
Proof.
  unfold js_append, truthy, nl.
  change (String "010" "" +:+ text) with (String "010" text).
  rewrite append_nonempty. reflexivity.
Qed.

(** X18.  In every reachable state the transcript cell holds the empty
    string or a truthy value, never [null], [0] or [false]: a falsy
    [transcription] is replaced by the stringified body, and every other
    write is a non-empty text.  So the tests [!transcript] of lines 85,
    106, 114 and 136 fail exactly on the empty string. *)
Theorem transcript_is_empty_or_truthy (w : World) :
  reachable w -> transcript_shown_or_empty w.
Proof.
  intros [trace H].
  refine (run_invariant transcript_shown_or_empty _ trace init w _ H);
    [|left; reflexivity].
  clear. unfold transcript_shown_or_empty. intros w e w' Inv Hstep.
  destruct e; step_inv Hstep; try exact Inv.
  - left. reflexivity.
  - unfold stopRecording. repeat break_goal_match; exact Inv.
  - unfold save_click. break_goal_match; exact Inv.
  - unfold summarize_click. break_goal_match; exact Inv.
  - destruct setup; [exact Inv | right; reflexivity | right; reflexivity].
  - right. reflexivity.
  - unfold ondataavailable. repeat break_goal_match; exact Inv.
  - right. unfold upload_resume. destruct o as [m | ok j]; [reflexivity|].
    destruct (get (Some j) "transcription") as [v|m]; [|reflexivity].
    cbn [transcript setTranscript setStatus]. unfold or_else. destruct v as [j'|].
    + destruct (truthy j') eqn:E; [exact E|].
      unfold truthy. rewrite JSON_stringify_nonempty. reflexivity.
    + unfold truthy. rewrite JSON_stringify_nonempty. reflexivity.
  - right. unfold save_resume in Hstep.
    repeat break_match_in Hstep; try discriminate Hstep; injection Hstep as <-;
      cbn [transcript setTranscript setStatus set_pending]; apply js_append_truthy.
  - unfold summarize_resume. repeat break_goal_match; exact Inv.
Qed.

Lemma transcript_is_empty_or_truthy_witness :
  transcript_shown_or_empty
    (after [ClickRecord; MicGranted SetupOk; ClickStop; RecorderStop 0;
            UploadSettled (Responded true (JObj [("transcription", JNum 0)]))]).
Proof.
  apply (transcript_is_empty_or_truthy
           (after [ClickRecord; MicGranted SetupOk; ClickStop; RecorderStop 0;
                   UploadSettled (Responded true (JObj [("transcription", JNum 0)]))])).
  exists [ClickRecord; MicGranted SetupOk; ClickStop; RecorderStop 0;
          UploadSettled (Responded true (JObj [("transcription", JNum 0)]))].
  vm_compute. reflexivity.
Defined.

(** ** What the status stands for *)

(** X19.  In every reachable state a status that names an operation in
    flight is backed by one: [requesting_mic] by a pending microphone
    request, [uploading], [saving] and [summarizing] by a pending fetch to
    that endpoint.  (The converse fails: the one status cell shows the last
    write only.) *)
Theorem status_names_a_pending_operation (w : World) :
  reachable w -> status_is_backed w.
Proof.
  intros [trace H].
  refine (run_invariant status_is_backed _ trace init w _ H); [|backed].
  clear. intros w e w' Inv Hstep.
  destruct e; step_inv Hstep; try exact Inv; try backed.
  - unfold save_click. break_goal_match; [exact Inv | backed].
  - unfold summarize_click. break_goal_match; [exact Inv | backed].
  - destruct setup; backed.
  - unfold ondataavailable. repeat break_goal_match; exact Inv.
  - unfold upload_resume. repeat break_goal_match; backed.
  - unfold save_resume in Hstep. repeat break_match_in Hstep; try discriminate Hstep;
      injection Hstep as <-; backed.
  - unfold summarize_resume. repeat break_goal_match; backed.
Qed.

Lemma status_names_a_pending_operation_witness :
  status_is_backed (after save_then_summarize).
Proof.
  apply (status_names_a_pending_operation (after save_then_summarize)).
  exists save_then_summarize. vm_compute. reflexivity.
Defined.
